(** * The recipe chatbot backend helper, [backend/utils.py]

    A shallow embedding of the module: the prompt constant, the model name
    read from the environment when the module is imported, and
    [get_agent_response], the wrapper around [litellm.completion].

    Python values live in a store: a conversation is a reference to a list
    object whose items are references to dict objects, so that aliasing and
    in-place mutation can be stated.  Text is a sequence of Unicode code
    points, as a Python [str] is. *)

From Stdlib Require Import ZArith NArith String Ascii Lia.
From stdpp Require Import gmap strings list fin_maps.

#[local] Set Warnings "-register-all".
#[local] Open Scope N_scope.

(** ** Text *)

Module PyStr.

(** The bytes of a string literal, as they stand in the UTF-8 source file. *)
Fixpoint bytes_of (s : string) : list N :=
  match s with
  | EmptyString => []
  | String a r => N_of_ascii a :: bytes_of r
  end.

Definition cont (b : N) : N := N.land b 0x3F.

(** UTF-8 decoding, which is how Python reads a literal of the source file
    into a [str].  An incomplete sequence at the end is dropped. *)
Fixpoint utf8_decode (bs : list N) : list N :=
  match bs with
  | [] => []
  | b :: r =>
      if b <? 0x80 then b :: utf8_decode r
      else if b <? 0xE0 then
        match r with
        | c1 :: r1 =>
            N.lor (N.shiftl (N.land b 0x1F) 6) (cont c1) :: utf8_decode r1
        | _ => []
        end
      else if b <? 0xF0 then
        match r with
        | c1 :: c2 :: r2 =>
            N.lor (N.shiftl (N.land b 0x0F) 12)
              (N.lor (N.shiftl (cont c1) 6) (cont c2)) :: utf8_decode r2
        | _ => []
        end
      else
        match r with
        | c1 :: c2 :: c3 :: r3 =>
            N.lor (N.shiftl (N.land b 0x07) 18)
              (N.lor (N.shiftl (cont c1) 12)
                 (N.lor (N.shiftl (cont c2) 6) (cont c3))) :: utf8_decode r3
        | _ => []
        end
  end.

(** A Python string literal. *)
Definition py (s : string) : list N := utf8_decode (bytes_of s).

Definition dquote : list N := [34].

(** [str.isspace] on one code point: the characters [str.strip] removes
    when it is called without an argument. *)
Definition isspace (c : N) : bool :=
  ((0x09 <=? c) && (c <=? 0x0D))
  || ((0x1C <=? c) && (c <=? 0x20))
  || (c =? 0x85) || (c =? 0xA0) || (c =? 0x1680)
  || ((0x2000 <=? c) && (c <=? 0x200A))
  || (c =? 0x2028) || (c =? 0x2029) || (c =? 0x202F)
  || (c =? 0x205F) || (c =? 0x3000).

Fixpoint lstrip (s : list N) : list N :=
  match s with
  | [] => []
  | c :: r => if isspace c then lstrip r else s
  end.

Definition rstrip (s : list N) : list N := rev (lstrip (rev s)).

(** [s.strip()] *)
Definition strip (s : list N) : list N := rstrip (lstrip s).

End PyStr.

Import PyStr.

(** ** The constants of the module *)

Definition SYSTEM_PROMPT : list N :=
  py "
### Role and Objective ###

You are a friendly and creative culinary assistant with expertise across all types of cooking - from indulgent comfort foods to healthy nutrition-focused meals. You provide recipes that match what users are specifically looking for, whether that's a decadent chocolate cake or a protein-packed healthy meal.

### Instructions ###

Provide a recipe meeting all of the requirements from the user.
- The recipe should first list all required ingredients with precise measurements for a particular serving size.
- Instructions would follow describing how to make the recipe.
- Before generating a recipe, be sure that what you are thinking of meets the user's needs. Think step-by-step. If unsure if your idea meets the user's needs, ask any clarifying questions to the user in a clear bulleted list and wait for their reply before proceeding to create the recipe. Only generate the recipe once you are sure.
- If the user query is vague, ask clarifying questions to better understand a recipe they would be interested in.
- Respect all user requirements related to cuisine specifications or dietary restrictions by ensuring no provided recipe violates any known constraints.
- If a user provides ingredients in their request, ensure the recipe you provide includes some amount of these ingredients.
- If a user asks for multiple recipes, instead of providing the details for each recipe, provide a bulleted list of options with a description of each, asking for user preference. Once you have confirmation, you can list all recipe(s) in the desired format.
- Never suggest recipes that require extremely rare or unobtainable ingredients without providing readily available alternatives.
- Never use offensive or derogatory language.
- If a user asks for a recipe that is unsafe, unethical, or promotes harmful activities, politely decline and state you cannot fulfill that request, without being preachy. Unsafe recipes include anything involving non-food substances or dangerous preparation techniques.
- Feel free to suggest common variations or substitutions for ingredients. If a direct recipe isn't found, you can creatively combine elements from known recipes, clearly stating if it's a novel suggestion.
- Structure your results using Markdown for formatting.

### Reasoning Steps ###

When creating a recipe, follow this step-by-step process:
1. Analyze the user's query to identify key requirements (cuisine type, dietary restrictions, available ingredients, etc.)
2. Determine the core cooking method and techniques appropriate for the dish
3. Select a balanced set of ingredients that work well together and meet the user's needs
4. Consider appropriate cooking times and temperatures
5. Organize the steps in a logical sequence that a home cook could follow

Only after completing this thought process should you format and present the final recipe.

### Edge Case Handling ###

- If a user request contains contradictory elements (e.g., "
  ++ dquote ++ py "vegan beef stew"
  ++ dquote ++ py "), politely point out the contradiction and suggest alternatives that come closest to meeting their intent.
- If a user asks technical questions about cooking methods or techniques, provide clear, concise explanations with practical examples.
- When providing recipes, consider common household equipment. If specialized equipment is mentioned, always suggest alternative methods using standard kitchen tools.
- If a user provides feedback on a recipe you've shared, acknowledge their experience, offer troubleshooting if needed, and use their feedback to inform future recommendations.

### Tone and Personality ###

- Maintain a warm, enthusiastic tone when discussing food and recipes.
- Use vibrant, descriptive language when describing dishes without being overly flowery.
- Be conversational but professional, as if you're a friendly chef sharing recipes with someone in your kitchen.
- Express excitement about interesting ingredient combinations or cooking techniques.
- When users share their cooking experiences or preferences, respond with encouragement and genuine interest.
- Keep explanations accessible to home cooks of all skill levels, avoiding unnecessarily complex culinary terminology.
- If suggesting a dish from a specific culture, be respectful and authentic in your descriptions.

### Output Formatting ###

- Structure your response clearly using Markdown for formatting.
- Begin every recipe response with the recipe name as a Level 2 Heading (e.g., `## Amazing Blueberry Muffins`).
- Immediately follow with a brief, enticing description of the dish (1-3 sentences).
- Next, include a section titled `### Ingredients`. List all ingredients using a Markdown unordered list (bullet points). Include the number of servings in the title.
- Following ingredients, include a section titled `### Instructions`. Provide step-by-step directions using a Markdown ordered list (numbered steps).
- Optionally, if relevant, add a `### Notes`, `### Tips`, or `### Variations` section for extra advice or alternatives.

### Example of Desired Structure ###

## High-Protein Egg White Veggie Scramble with Cottage Cheese

This high-protein veggie scramble is light, satisfying, and packed with flavor. Fluffy egg whites, sautéed vegetables, and creamy cottage cheese come together for a filling, muscle-friendly meal that keeps hunger at bay. Perfect for a lean, nutrient-dense start to your day.

### Ingredients (1 serving)

* 6 egg whites
* 1 whole egg
* 1 cup spinach
* ½ cup diced bell pepper
* ¼ cup diced onion
* ½ cup low-fat cottage cheese (1%)
* Salt and pepper to taste
* Non-stick spray or 1 tsp olive oil

### Instructions

1. Spray a pan with non-stick spray or add 1 tsp olive oil and heat over medium.
2. Sauté onion and bell pepper for 2-3 minutes until soft.
3. Add spinach and cook until wilted.
4. Add egg whites and whole egg, scramble until cooked through.
5. Top with cottage cheese and serve.

### Key Reminders ###

Remember to:
- Always match recipes precisely to user requirements
- Ask clarifying questions when user requests are vague
- Structure all responses using the specified Markdown format
- Think step-by-step through the reasoning process before generating a recipe
- Never recommend unsafe recipes or extremely rare ingredients without alternatives
- Maintain a warm, conversational tone throughout interactions
".

(** ** Values, exceptions and the store *)

(** A subscript: [x["choices"]] or [x[0]]. *)
Inductive key :=
  | KStr (s : list N)
  | KInt (i : Z).

(** What the provider hands back.  The response is only ever read, through
    subscripts, so it is taken as the tree of values those subscripts give:
    a dict stands for whatever answers a string subscript, litellm's
    response object included. *)
Inductive pyval :=
  | VNone
  | VBool (b : bool)
  | VInt (i : Z)
  | VStr (s : list N)
  | VList (items : list pyval)
  | VDict (d : gmap (list N) pyval).

(** The exceptions the module can meet.  [LibraryError] stands for the
    exception classes of litellm and of its transport (time-out,
    authentication, quota, ...).  [Stuck] is no Python exception: it is the
    answer of the model on a store that no Python program can build (a
    reference to no object, or a request whose messages are not a list of
    dicts). *)
Inductive exn :=
  | KeyError (k : key)
  | IndexError
  | TypeError
  | AttributeError
  | LibraryError (name : list N)
  | Stuck.

Inductive outcome :=
  | Returned (v : pyval)
  | Raised (e : exn).

Inductive result (A : Type) :=
  | Return (a : A)
  | Raise (e : exn).
Arguments Return {A} a.
Arguments Raise {A} e.

Abbreviation loc := positive.
Abbreviation message := (gmap (list N) (list N)).

(** Mutable objects: a list holds references, a [Dict[str, str]] holds text. *)
Inductive obj :=
  | OList (items : list loc)
  | ODict (d : message).

(** One call of [litellm.completion]: the two keyword arguments the module
    passes (it passes no others), [messages] being what the list handed over
    holds at the time of the call. *)
Record request := mk_request {
  req_model : list N;
  req_messages : list message
}.

Record world := mk_world {
  heap : gmap loc obj;
  environ : gmap (list N) (list N);
  MODEL_NAME : list N;
  calls : list request
}.

Definition M (A : Type) : Type := world -> result A * world.

Definition ret {A} (a : A) : M A := fun w => (Return a, w).

Definition raise {A} (e : exn) : M A := fun w => (Raise e, w).

Definition bind {A B} (m : M A) (k : A -> M B) : M B :=
  fun w =>
    match m w with
    | (Return a, w') => k a w'
    | (Raise e, w') => (Raise e, w')
    end.

Declare Scope py_scope.
Delimit Scope py_scope with py.
Notation "x <~ m ;; k" := (bind m (fun x => k))
  (at level 20, m at level 99, k at level 200, only parsing) : py_scope.
#[local] Open Scope py_scope.

Definition lift {A} (r : result A) : M A := fun w => (r, w).

(** Reading a global of the module. *)
Definition global {A} (name : world -> A) : M A := fun w => (Return (name w), w).

Definition deref (x : loc) : M obj :=
  fun w =>
    match heap w !! x with
    | Some o => (Return o, w)
    | None => (Raise Stuck, w)
    end.

Definition with_heap (h : gmap loc obj) (w : world) : world :=
  mk_world h (environ w) (MODEL_NAME w) (calls w).

(** A new object gets an address no object has. *)
Definition alloc (o : obj) : M loc :=
  fun w =>
    let x := fresh (dom (heap w)) in
    (Return x, with_heap (<[x := o]> (heap w)) w).

(** [l[i]] on a sequence, negative positions counted from the end. *)
Definition py_index {A} (l : list A) (i : Z) : option A :=
  if (0 <=? i)%Z then l !! Z.to_nat i
  else if (- Z.of_nat (length l) <=? i)%Z
       then l !! Z.to_nat (Z.of_nat (length l) + i)
       else None.

(** [not x] *)
Definition py_not (x : loc) : M bool :=
  o <~ deref x ;;
  ret (match o with
       | OList items => bool_decide (items = [])
       | ODict d => bool_decide (d = ∅)
       end).

(** [x[i]] for an integer [i] *)
Definition item_int (x : loc) (i : Z) : M loc :=
  o <~ deref x ;;
  match o with
  | OList items =>
      match py_index items i with
      | Some y => ret y
      | None => raise IndexError
      end
  | ODict _ => raise (KeyError (KInt i))
  end.

(** [x[k]] for a string [k] *)
Definition item_str (x : loc) (k : list N) : M (list N) :=
  o <~ deref x ;;
  match o with
  | ODict d =>
      match d !! k with
      | Some v => ret v
      | None => raise (KeyError (KStr k))
      end
  | OList _ => raise TypeError
  end.

(** [a + b] *)
Definition list_add (a b : loc) : M loc :=
  oa <~ deref a ;;
  ob <~ deref b ;;
  match oa, ob with
  | OList la, OList lb => alloc (OList (la ++ lb))
  | _, _ => raise TypeError
  end.

(** [{"role": role, "content": content}] *)
Definition role_content (role content : list N) : message :=
  <[py "content" := content]> (<[py "role" := role]> ∅).

(** [v[k]] on a value of the response *)
Definition subscript (v : pyval) (k : key) : result pyval :=
  match v, k with
  | VDict d, KStr s =>
      match d !! s with
      | Some x => Return x
      | None => Raise (KeyError k)
      end
  | VDict _, KInt _ => Raise (KeyError k)
  | VList items, KInt i =>
      match py_index items i with
      | Some x => Return x
      | None => Raise IndexError
      end
  | VStr s, KInt i =>
      match py_index s i with
      | Some c => Return (VStr [c])
      | None => Raise IndexError
      end
  | _, _ => Raise TypeError
  end.

(** [v.strip()] *)
Definition py_strip (v : pyval) : result (list N) :=
  match v with
  | VStr s => Return (strip s)
  | _ => Raise AttributeError
  end.

Definition and_then {A B} (r : result A) (k : A -> result B) : result B :=
  match r with
  | Return a => k a
  | Raise e => Raise e
  end.

(** [completion["choices"][0]["message"]["content"].strip()] *)
Definition assistant_reply (completion : pyval) : result (list N) :=
  and_then (subscript completion (KStr (py "choices"))) (fun choices =>
  and_then (subscript choices (KInt 0)) (fun choice =>
  and_then (subscript choice (KStr (py "message"))) (fun msg =>
  and_then (subscript msg (KStr (py "content"))) py_strip))).

(** The dict at an address, when there is one. *)
Definition message_at (h : gmap loc obj) (x : loc) : option message :=
  match h !! x with
  | Some (ODict d) => Some d
  | _ => None
  end.

(** The messages a list object holds, when it is a list of dicts. *)
Definition snapshot (h : gmap loc obj) (x : loc) : option (list message) :=
  match h !! x with
  | Some (OList items) => mapM (message_at h) items
  | _ => None
  end.

Definition log (r : request) (w : world) : world :=
  mk_world (heap w) (environ w) (MODEL_NAME w) (calls w ++ [r]).

(** ** The module *)

(** [load_dotenv(override=False)]: the variables of the [.env] file are
    added to the environment, those already set keep their value. *)
Definition load_dotenv (dotenv : gmap (list N) (list N))
    (env : gmap (list N) (list N)) : gmap (list N) (list N) :=
  env ∪ dotenv.

(** [os.environ.get(k, d)] *)
Definition environ_get (env : gmap (list N) (list N)) (k d : list N) : list N :=
  default d (env !! k).

(** Importing the module: the [.env] file is loaded, then [MODEL_NAME] is
    bound. *)
Definition import_utils (dotenv env : gmap (list N) (list N)) : world :=
  let env' := load_dotenv dotenv env in
  mk_world ∅ env' (environ_get env' (py "MODEL_NAME") (py "gpt-4o-mini")) [].

Section Forwarder.

(** The provider behind [litellm.completion]: its answer to a request may
    depend on how many calls came before.  It is given the request, not
    the store: the library is taken to read the list it is handed and to
    leave it as it is. *)
Context (provider : nat -> request -> outcome).

(** [litellm.completion(model=model, messages=messages)] *)
Definition litellm_completion (model : list N) (messages : loc) : M pyval :=
  fun w =>
    match snapshot (heap w) messages with
    | None => (Raise Stuck, w)
    | Some ms =>
        let r := mk_request model ms in
        match provider (length (calls w)) r with
        | Returned v => (Return v, log r w)
        | Raised e => (Raise e, log r w)
        end
    end.

Definition get_agent_response (messages : loc) : M loc :=
  empty <~ py_not messages ;;
  prepend <~ (if (empty : bool) then ret true
              else
                first <~ item_int messages 0 ;;
                role <~ item_str first (py "role") ;;
                ret (negb (bool_decide (role = py "system")))) ;;
  current_messages <~ (if (prepend : bool) then
                         d <~ alloc (ODict (role_content (py "system") SYSTEM_PROMPT)) ;;
                         l <~ alloc (OList [d]) ;;
                         list_add l messages
                       else ret messages) ;;
  model <~ global MODEL_NAME ;;
  completion <~ litellm_completion model current_messages ;;
  assistant_reply_content <~ lift (assistant_reply completion) ;;
  d <~ alloc (ODict (role_content (py "assistant") assistant_reply_content)) ;;
  l <~ alloc (OList [d]) ;;
  list_add current_messages l.

End Forwarder.

(** ** The host *)

(** The caller builds a conversation: one dict per message, then the list. *)
Fixpoint new_dicts (ms : list message) : M (list loc) :=
  match ms with
  | [] => ret []
  | m :: r =>
      x <~ alloc (ODict m) ;;
      xs <~ new_dicts r ;;
      ret (x :: xs)
  end.

Definition new_conversation (ms : list message) : M loc :=
  xs <~ new_dicts ms ;;
  alloc (OList xs).

(** What a host process does after the import: it forwards conversations
    and it may change its environment in between. *)
Inductive action :=
  | Forward (history : list message)
  | Putenv (k v : list N)
  | Unsetenv (k : list N).

Definition with_environ (env : gmap (list N) (list N)) (w : world) : world :=
  mk_world (heap w) env (MODEL_NAME w) (calls w).

Definition step (provider : nat -> request -> outcome) (a : action)
    (w : world) : world :=
  match a with
  | Forward history =>
      snd ((x <~ new_conversation history ;; get_agent_response provider x) w)
  | Putenv k v => with_environ (<[k := v]> (environ w)) w
  | Unsetenv k => with_environ (delete k (environ w)) w
  end.

Definition run (provider : nat -> request -> outcome) (acts : list action)
    (w : world) : world :=
  foldl (fun w a => step provider a w) w acts.

(** ** Sample data *)

Definition user_says (s : string) : message := role_content (py "user") (py s).

Definition reply_of (content : pyval) : pyval :=
  VDict {[ py "choices" :=
             VList [VDict {[ py "message" :=
                               VDict {[ py "role" := VStr (py "assistant");
                                        py "content" := content ]} ]}] ]}.

Definition answers (v : pyval) : nat -> request -> outcome :=
  fun _ _ => Returned v.

Definition fails (e : exn) : nat -> request -> outcome :=
  fun _ _ => Raised e.

Definition w0 : world := import_utils ∅ ∅.

(** A conversation held in a store that holds nothing else. *)
Definition held (history : list message) : loc * world :=
  match new_conversation history w0 with
  | (Return x, w) => (x, w)
  | (Raise _, w) => (1%positive, w)
  end.

(** The caller's view of one call: build the conversation, call, read the
    list that comes back. *)
Definition reply_to (provider : nat -> request -> outcome)
    (history : list message) : result (list message) :=
  match get_agent_response provider (fst (held history)) (snd (held history)) with
  | (Return y, w') =>
      match snapshot (heap w') y with
      | Some ms => Return ms
      | None => Raise Stuck
      end
  | (Raise e, _) => Raise e
  end.

Definition pasta : list message := [user_says "Give me a pasta recipe"].

Definition briefed : list message :=
  [role_content (py "system") (py ""); user_says "Give me a pasta recipe"].

Definition boiled : pyval := reply_of (VStr (py "  Boil it.  ")).

Definition roleless : list message := [{[ py "content" := py "hello" ]}].

(** A history whose system message is not the first message. *)
Definition late_system : list message :=
  [user_says "Give me a pasta recipe"; role_content (py "system") (py "Be brief.")].

Definition no_content : pyval :=
  VDict {[ py "choices" := VList [VDict {[ py "message" := VDict ∅ ]}] ]}.

(** ** Vocabulary of the statements *)

Definition role (m : message) : option (list N) := m !! py "role".

Definition content (m : message) : option (list N) := m !! py "content".

Definition system_message : message := role_content (py "system") SYSTEM_PROMPT.

Definition assistant_message (s : list N) : message :=
  role_content (py "assistant") s.

(** The conversation starts with a message whose role is ["system"]. *)
Definition leading_system (history : list message) : bool :=
  match history with
  | m :: _ => bool_decide (role m = Some (py "system"))
  | [] => false
  end.

(** The sequence the provider is to receive. *)
Definition working (history : list message) : list message :=
  if leading_system history then history else system_message :: history.

(** The docstring asks for dicts with a role; the function reads the role of
    the first one only. *)
Definition head_has_role (history : list message) : Prop :=
  match history with
  | m :: _ => is_Some (role m)
  | [] => True
  end.

Definition is_system (m : message) : bool :=
  bool_decide (role m = Some (py "system")).

Definition count_system (ms : list message) : nat :=
  length (filter (fun m => is_system m = true) ms).

(** No white space at either end. *)
Definition trimmed (s : list N) : Prop :=
  (forall c, head s = Some c -> isspace c = false) /\
  (forall c, last s = Some c -> isspace c = false).

(** A response with a first choice whose message has text content. *)
Definition well_formed (v : pyval) (text : list N) : Prop :=
  exists d dc rest dm,
    v = VDict d /\
    d !! py "choices" = Some (VList (VDict dc :: rest)) /\
    dc !! py "message" = Some (VDict dm) /\
    dm !! py "content" = Some (VStr text).

(** The call to the provider raised, or its response cannot be read. *)
Definition provider_failed (o : outcome) : Prop :=
  match o with
  | Raised _ => True
  | Returned v => forall text, ~ well_formed v text
  end.

(** An exception of a class named [ProviderError].  The module defines no
    exception class and no built-in exception has that name; an exception
    of litellm or of its transport is one when its class is so named. *)
Definition is_ProviderError (e : exn) : Prop :=
  match e with
  | LibraryError name => name = py "ProviderError"
  | _ => False
  end.

(** The exceptions that reading a response can raise. *)
Definition lookup_error (e : exn) : Prop :=
  match e with
  | KeyError _ | IndexError | TypeError | AttributeError => True
  | _ => False
  end.

(** The second world has the objects of the first, unchanged, and maybe
    more; nothing else differs. *)
Record grown (w w' : world) : Prop := mk_grown {
  grown_heap : heap w ⊆ heap w';
  grown_environ : environ w' = environ w;
  grown_model : MODEL_NAME w' = MODEL_NAME w;
  grown_calls : calls w' = calls w
}.

(** From the first world to the second, objects were added and at most [n]
    requests were sent, each with the model name the module holds. *)
Record served (n : nat) (w w' : world) : Prop := mk_served {
  served_heap : heap w ⊆ heap w';
  served_environ : environ w' = environ w;
  served_model : MODEL_NAME w' = MODEL_NAME w;
  served_calls :
    exists rs, calls w' = calls w ++ rs /\ (length rs <= n)%nat /\
               Forall (fun r => req_model r = MODEL_NAME w) rs
}.

Definition asks {A} (n : nat) (m : M A) : Prop :=
  forall w, served n w (snd (m w)).

(** The request of a call on [history], and the provider's answer to it. *)
Definition submitted (w : world) (history : list message) : request :=
  mk_request (MODEL_NAME w) (working history).

Definition answer (provider : nat -> request -> outcome) (w : world)
    (history : list message) : outcome :=
  provider (length (calls w)) (submitted w history).

(** What a call comes to once the working list [cur] is in place in [w1]:
    the provider is asked once; its exception, or the exception of reading
    its response, ends the call; otherwise one dict [d] and the list [y] of
    the result are new. *)
Definition finished (provider : nat -> request -> outcome) (w1 : world)
    (cur : loc) (cur_items : list loc) (ms : list message)
    (res : result loc * world) : Prop :=
  let r := mk_request (MODEL_NAME w1) ms in
  match provider (length (calls w1)) r with
  | Raised e => res = (Raise e, log r w1)
  | Returned v =>
      match assistant_reply v with
      | Raise e => res = (Raise e, log r w1)
      | Return s =>
          exists d y w2,
            res = (Return y, w2) /\
            grown (log r w1) w2 /\
            heap w1 !! d = None /\ heap w1 !! y = None /\
            heap w2 !! d = Some (ODict (assistant_message s)) /\
            heap w2 !! y = Some (OList (cur_items ++ [d])) /\
            mapM (message_at (heap w2)) (cur_items ++ [d]) =
              Some (ms ++ [assistant_message s]) /\
            (forall l m, heap w2 !! l = Some (ODict m) ->
                         heap w1 !! l = Some (ODict m) \/
                         m = assistant_message s)
      end
  end.

(** * Properties *)

(** ** Stripping *)

Section Strip.

Lemma lstrip_split (s : list N) :
  exists p, s = p ++ lstrip s /\ forallb isspace p = true.
Proof.
  induction s as [|c r [p [Hr Hp]]].
  - exists []; split; reflexivity.
  - simpl. destruct (isspace c) eqn:Hc.
    + exists (c :: p). split.
      * simpl. congruence.
      * simpl. rewrite Hc, Hp. reflexivity.
    + exists []. split; reflexivity.
Qed.

Lemma lstrip_head (s : list N) (c : N) :
  head (lstrip s) = Some c -> isspace c = false.
Proof.
  induction s as [|a r IH]; simpl; [discriminate|].
  destruct (isspace a) eqn:Ha; [exact IH|].
  simpl. intros [= <-]. exact Ha.
Qed.

Lemma lstrip_spaces (s : list N) :
  forallb isspace s = true -> lstrip s = [].
Proof.
  induction s as [|a r IH]; simpl; [reflexivity|].
  destruct (isspace a); simpl; [exact IH | discriminate].
Qed.

Lemma rstrip_split (s : list N) :
  exists q, s = rstrip s ++ q /\ forallb isspace q = true.
Proof.
  unfold rstrip.
  destruct (lstrip_split (rev s)) as [p [Hs Hp]].
  exists (rev p). split.
  - rewrite <- rev_app_distr, <- Hs, rev_involutive. reflexivity.
  - rewrite forallb_forall in *. intros c Hc. apply Hp, in_rev, Hc.
Qed.

Lemma last_rev_head (s : list N) : last (rev s) = head s.
Proof.
  destruct s as [|a r]; [reflexivity|].
  simpl. apply last_snoc.
Qed.

Lemma rstrip_last (s : list N) (c : N) :
  last (rstrip s) = Some c -> isspace c = false.
Proof.
  unfold rstrip. rewrite last_rev_head. apply lstrip_head.
Qed.

Lemma rstrip_head (s : list N) (c : N) :
  head (rstrip s) = Some c -> head s = Some c.
Proof.
  destruct (rstrip_split s) as [q [Hs _]].
  intros H. rewrite Hs.
  destruct (rstrip s); [discriminate | exact H].
Qed.

Lemma strip_trimmed (s : list N) : trimmed (strip s).
Proof.
  split; intros c H.
  - apply (lstrip_head s), rstrip_head, H.
  - apply (rstrip_last (lstrip s)), H.
Qed.

Lemma strip_spaces (s : list N) :
  forallb isspace s = true -> strip s = [].
Proof.
  intros H. unfold strip. rewrite (lstrip_spaces s H). reflexivity.
Qed.

Lemma strip_split (s : list N) :
  exists p q, s = p ++ strip s ++ q /\
              forallb isspace p = true /\ forallb isspace q = true.
Proof.
  destruct (lstrip_split s) as (p & Hp & Hps).
  destruct (rstrip_split (lstrip s)) as (q & Hq & Hqs).
  exists p, q. split; [|split; assumption].
  unfold strip. rewrite <- Hq. exact Hp.
Qed.

End Strip.

(** ** The store *)

Section Store.

Lemma grown_refl (w : world) : grown w w.
Proof. split; reflexivity. Qed.

Lemma grown_trans (w1 w2 w3 : world) :
  grown w1 w2 -> grown w2 w3 -> grown w1 w3.
Proof.
  intros [H1 E1 M1 C1] [H2 E2 M2 C2]. split.
  - etrans; eassumption.
  - congruence.
  - congruence.
  - congruence.
Qed.

Lemma grown_lookup (w w' : world) (x : loc) (o : obj) :
  grown w w' -> heap w !! x = Some o -> heap w' !! x = Some o.
Proof. intros [H _ _ _] Hx. eapply lookup_weaken; eassumption. Qed.

Lemma alloc_run (o : obj) (w : world) :
  exists x w',
    alloc o w = (Return x, w') /\
    heap w !! x = None /\
    heap w' = <[x := o]> (heap w) /\
    grown w w'.
Proof.
  exists (fresh (dom (heap w))), (with_heap (<[fresh (dom (heap w)) := o]> (heap w)) w).
  assert (Hf : heap w !! fresh (dom (heap w)) = None).
  { apply not_elem_of_dom, is_fresh. }
  repeat split; try reflexivity; try assumption.
  simpl. apply insert_subseteq, Hf.
Qed.

Lemma deref_run (x : loc) (o : obj) (w : world) :
  heap w !! x = Some o -> deref x w = (Return o, w).
Proof. unfold deref. intros ->. reflexivity. Qed.

Lemma message_at_Some (h : gmap loc obj) (x : loc) (m : message) :
  message_at h x = Some m <-> h !! x = Some (ODict m).
Proof.
  unfold message_at. destruct (h !! x) as [[|]|]; naive_solver.
Qed.

Lemma message_at_mono (h h' : gmap loc obj) (x : loc) (m : message) :
  h ⊆ h' -> message_at h x = Some m -> message_at h' x = Some m.
Proof.
  rewrite !message_at_Some. intros Hs H. eapply lookup_weaken; eassumption.
Qed.

Lemma messages_mono (h h' : gmap loc obj) (items : list loc)
    (ms : list message) :
  h ⊆ h' ->
  mapM (message_at h) items = Some ms ->
  mapM (message_at h') items = Some ms.
Proof.
  intros Hs. rewrite !mapM_Some. intros H.
  eapply Forall2_impl; [exact H|].
  intros i m. apply message_at_mono, Hs.
Qed.

Lemma snapshot_Some (h : gmap loc obj) (x : loc) (ms : list message) :
  snapshot h x = Some ms <->
  exists items, h !! x = Some (OList items) /\
                mapM (message_at h) items = Some ms.
Proof.
  unfold snapshot. destruct (h !! x) as [[items|d]|].
  - split; [intros H; exists items; split; [reflexivity | exact H]|].
    intros (items' & [= <-] & H). exact H.
  - split; [discriminate | intros (? & [=] & _)].
  - split; [discriminate | intros (? & [=] & _)].
Qed.

Lemma snapshot_mono (h h' : gmap loc obj) (x : loc) (ms : list message) :
  h ⊆ h' -> snapshot h x = Some ms -> snapshot h' x = Some ms.
Proof.
  intros Hs. rewrite !snapshot_Some. intros (items & Hx & Hm).
  exists items. split.
  - eapply lookup_weaken; eassumption.
  - eapply messages_mono; eassumption.
Qed.

End Store.

(** ** Running the function *)

Section Run.

Context (provider : nat -> request -> outcome).

Lemma bind_run {A B} (m : M A) (k : A -> M B) (w w' : world) (a : A) :
  m w = (Return a, w') -> bind m k w = k a w'.
Proof. unfold bind. intros ->. reflexivity. Qed.

Lemma bind_raise {A B} (m : M A) (k : A -> M B) (w w' : world) (e : exn) :
  m w = (Raise e, w') -> bind m k w = (Raise e, w').
Proof. unfold bind. intros ->. reflexivity. Qed.

Lemma py_not_run (x : loc) (items : list loc) (w : world) :
  heap w !! x = Some (OList items) ->
  py_not x w = (Return (bool_decide (items = [])), w).
Proof.
  intros Hx. unfold py_not. rewrite (bind_run _ _ _ _ _ (deref_run _ _ _ Hx)).
  reflexivity.
Qed.

Lemma item_int_run (x y : loc) (items : list loc) (i : Z) (w : world) :
  heap w !! x = Some (OList items) ->
  py_index items i = Some y ->
  item_int x i w = (Return y, w).
Proof.
  intros Hx Hi. unfold item_int.
  rewrite (bind_run _ _ _ _ _ (deref_run _ _ _ Hx)), Hi. reflexivity.
Qed.

Lemma item_str_run (x : loc) (d : message) (k v : list N) (w : world) :
  heap w !! x = Some (ODict d) ->
  d !! k = Some v ->
  item_str x k w = (Return v, w).
Proof.
  intros Hx Hk. unfold item_str.
  rewrite (bind_run _ _ _ _ _ (deref_run _ _ _ Hx)), Hk. reflexivity.
Qed.

Lemma list_add_run (a b : loc) (la lb : list loc) (w : world) :
  heap w !! a = Some (OList la) ->
  heap w !! b = Some (OList lb) ->
  list_add a b w = alloc (OList (la ++ lb)) w.
Proof.
  intros Ha Hb. unfold list_add.
  rewrite (bind_run _ _ _ _ _ (deref_run _ _ _ Ha)).
  rewrite (bind_run _ _ _ _ _ (deref_run _ _ _ Hb)). reflexivity.
Qed.

Lemma litellm_completion_run (model : list N) (x : loc)
    (ms : list message) (w : world) :
  snapshot (heap w) x = Some ms ->
  litellm_completion provider model x w =
    (match provider (length (calls w)) (mk_request model ms) with
     | Returned v => Return v
     | Raised e => Raise e
     end, log (mk_request model ms) w).
Proof.
  intros Hs. unfold litellm_completion. rewrite Hs.
  destruct (provider _ _); reflexivity.
Qed.

Lemma mapM_snoc (h : gmap loc obj) (items : list loc) (ms : list message)
    (d : loc) (m : message) :
  mapM (message_at h) items = Some ms ->
  h !! d = Some (ODict m) ->
  mapM (message_at h) (items ++ [d]) = Some (ms ++ [m]).
Proof.
  rewrite !mapM_Some. intros H Hd. apply Forall2_app; [exact H|].
  constructor; [|constructor]. apply message_at_Some, Hd.
Qed.

Lemma finish_run (cur : loc) (cur_items : list loc) (ms : list message)
    (w1 : world) :
  heap w1 !! cur = Some (OList cur_items) ->
  mapM (message_at (heap w1)) cur_items = Some ms ->
  finished provider w1 cur cur_items ms
    ((model <~ global MODEL_NAME ;;
      completion <~ litellm_completion provider model cur ;;
      assistant_reply_content <~ lift (assistant_reply completion) ;;
      d <~ alloc (ODict (role_content (py "assistant") assistant_reply_content)) ;;
      l <~ alloc (OList [d]) ;;
      list_add cur l) w1).
Proof.
  intros Hcur Hms.
  assert (Hsnap : snapshot (heap w1) cur = Some ms).
  { apply snapshot_Some. exists cur_items. split; assumption. }
  unfold finished.
  rewrite (bind_run (global MODEL_NAME) _ w1 w1 (MODEL_NAME w1) eq_refl).
  set (r := mk_request (MODEL_NAME w1) ms).
  pose proof (litellm_completion_run (MODEL_NAME w1) _ _ _ Hsnap) as Hc.
  fold r in Hc.
  destruct (provider (length (calls w1)) r) as [v|e];
    [|apply (bind_raise _ _ _ _ _ Hc)].
  rewrite (bind_run _ _ _ _ _ Hc).
  destruct (assistant_reply v) as [s|e];
    [|apply (bind_raise (lift (Raise e)) _ _ _ _ eq_refl)].
  rewrite (bind_run (lift (Return s)) _ _ _ _ eq_refl).
  destruct (alloc_run (ODict (role_content (py "assistant") s)) (log r w1))
    as (d & wd & Hd & Hdf & Hdh & Hdg).
  rewrite (bind_run _ _ _ _ _ Hd).
  destruct (alloc_run (OList [d]) wd) as (l & wl & Hl & Hlf & Hlh & Hlg).
  rewrite (bind_run _ _ _ _ _ Hl).
  assert (Hcur_l : heap wl !! cur = Some (OList cur_items)).
  { apply (grown_lookup wd wl _ _ Hlg), (grown_lookup (log r w1) wd _ _ Hdg), Hcur. }
  assert (Hl_l : heap wl !! l = Some (OList [d])).
  { rewrite Hlh. apply lookup_insert_eq. }
  rewrite (list_add_run _ _ _ _ _ Hcur_l Hl_l).
  destruct (alloc_run (OList (cur_items ++ [d])) wl)
    as (y & wy & Hy & Hyf & Hyh & Hyg).
  assert (Hg : grown (log r w1) wy).
  { eapply grown_trans; [|exact Hyg]. eapply grown_trans; eassumption. }
  assert (Hd_y : heap wy !! d = Some (ODict (assistant_message s))).
  { apply (grown_lookup wl wy _ _ Hyg), (grown_lookup wd wl _ _ Hlg).
    rewrite Hdh. apply lookup_insert_eq. }
  exists d, y, wy. repeat split.
  - exact Hy.
  - apply Hg.
  - apply Hg.
  - apply Hg.
  - apply Hg.
  - exact Hdf.
  - eapply lookup_weaken_None; [exact Hyf|].
    etrans; [apply (grown_heap _ _ Hdg) | apply (grown_heap _ _ Hlg)].
  - exact Hd_y.
  - rewrite Hyh. apply lookup_insert_eq.
  - apply mapM_snoc; [|exact Hd_y].
    eapply messages_mono; [apply (grown_heap _ _ Hg) | exact Hms].
  - intros l0 m. rewrite Hyh, Hlh, Hdh.
    rewrite !lookup_insert. repeat case_decide; try discriminate.
    + intros [= <-]. right. reflexivity.
    + intros Hold. left. exact Hold.
Qed.

(** [[{"role": "system", "content": SYSTEM_PROMPT}] + messages] *)
Lemma prepend_run (x : loc) (items : list loc) (w : world) :
  heap w !! x = Some (OList items) ->
  exists d cur w1,
    (d <~ alloc (ODict (role_content (py "system") SYSTEM_PROMPT)) ;;
     l <~ alloc (OList [d]) ;;
     list_add l x) w = (Return cur, w1) /\
    grown w w1 /\
    heap w !! d = None /\ heap w !! cur = None /\
    heap w1 !! d = Some (ODict system_message) /\
    heap w1 !! cur = Some (OList (d :: items)) /\
    (forall l m, heap w1 !! l = Some (ODict m) ->
                 heap w !! l = Some (ODict m) \/ m = system_message).
Proof.
  intros Hx.
  destruct (alloc_run (ODict (role_content (py "system") SYSTEM_PROMPT)) w)
    as (d & wd & Hd & Hdf & Hdh & Hdg).
  rewrite (bind_run _ _ _ _ _ Hd).
  destruct (alloc_run (OList [d]) wd) as (l & wl & Hl & Hlf & Hlh & Hlg).
  rewrite (bind_run _ _ _ _ _ Hl).
  assert (Hx_l : heap wl !! x = Some (OList items)).
  { apply (grown_lookup wd wl _ _ Hlg), (grown_lookup w wd _ _ Hdg), Hx. }
  assert (Hl_l : heap wl !! l = Some (OList [d])).
  { rewrite Hlh. apply lookup_insert_eq. }
  rewrite (list_add_run _ _ _ _ _ Hl_l Hx_l).
  destruct (alloc_run (OList ([d] ++ items)) wl)
    as (c & wc & Hc & Hcf & Hch & Hcg).
  assert (Hg : grown w wc).
  { eapply grown_trans; [|exact Hcg]. eapply grown_trans; eassumption. }
  exists d, c, wc. repeat split.
  - exact Hc.
  - apply Hg.
  - apply Hg.
  - apply Hg.
  - apply Hg.
  - exact Hdf.
  - eapply lookup_weaken_None; [exact Hcf|].
    etrans; [apply (grown_heap _ _ Hdg) | apply (grown_heap _ _ Hlg)].
  - apply (grown_lookup wl wc _ _ Hcg), (grown_lookup wd wl _ _ Hlg).
    rewrite Hdh. apply lookup_insert_eq.
  - rewrite Hch. apply lookup_insert_eq.
  - intros l0 m. rewrite Hch, Hlh, Hdh.
    rewrite !lookup_insert. repeat case_decide; try discriminate.
    + intros [= <-]. right. reflexivity.
    + intros Hold. left. exact Hold.
Qed.

Lemma get_agent_response_run (x : loc) (history : list message) (w : world) :
  snapshot (heap w) x = Some history ->
  head_has_role history ->
  exists cur items cur_items w1,
    heap w !! x = Some (OList items) /\
    grown w w1 /\
    heap w1 !! cur = Some (OList cur_items) /\
    mapM (message_at (heap w1)) cur_items = Some (working history) /\
    (if leading_system history then cur = x /\ w1 = w
     else exists d, cur_items = d :: items /\
                    heap w !! d = None /\ heap w !! cur = None /\
                    heap w1 !! d = Some (ODict system_message)) /\
    (forall l m, heap w1 !! l = Some (ODict m) ->
                 heap w !! l = Some (ODict m) \/ m = system_message) /\
    finished provider w1 cur cur_items (working history)
      (get_agent_response provider x w).
Proof.
  intros Hsnap Hrole.
  apply snapshot_Some in Hsnap as (items & Hx & Hms).
  assert (Hpre : leading_system history = false ->
    exists cur cur_items w1,
      grown w w1 /\
      heap w1 !! cur = Some (OList cur_items) /\
      mapM (message_at (heap w1)) cur_items = Some (working history) /\
      (exists d, cur_items = d :: items /\
                 heap w !! d = None /\ heap w !! cur = None /\
                 heap w1 !! d = Some (ODict system_message)) /\
      (forall l m, heap w1 !! l = Some (ODict m) ->
                   heap w !! l = Some (ODict m) \/ m = system_message) /\
      forall k : loc -> M loc,
        bind (d <~ alloc (ODict (role_content (py "system") SYSTEM_PROMPT)) ;;
              l <~ alloc (OList [d]) ;;
              list_add l x) k w = k cur w1).
  { intros Hlead.
    destruct (prepend_run x items w Hx)
      as (d & cur & w1 & Hrun & Hg & Hdf & Hcf & Hd & Hcur & Hnew).
    exists cur, (d :: items), w1. repeat split; try apply Hg.
    - exact Hcur.
    - unfold working. rewrite Hlead.
      apply mapM_Some. constructor.
      + apply message_at_Some, Hd.
      + apply mapM_Some. eapply messages_mono; [apply Hg | exact Hms].
    - exists d. repeat split; assumption.
    - exact Hnew.
    - intros k. apply bind_run, Hrun. }
  unfold get_agent_response.
  rewrite (bind_run _ _ _ _ _ (py_not_run _ _ _ Hx)).
  destruct items as [|i0 rest].
  - (* the empty conversation *)
    apply mapM_Some in Hms. inversion Hms; subst.
    rewrite (bind_run (ret true) _ w w true eq_refl).
    destruct (Hpre eq_refl)
      as (cur & cur_items & w1 & Hg & Hcur & Hw & Hd & Hnew & Hk).
    rewrite Hk.
    exists cur, [], cur_items, w1. repeat split; try apply Hg; try assumption.
    apply finish_run; assumption.
  - apply mapM_Some in Hms.
    inversion Hms as [|? m0 ? hrest Hm0 Hrest]; subst.
    apply message_at_Some in Hm0.
    destruct Hrole as [r Hr].
    rewrite bool_decide_eq_false_2 by discriminate.
    assert (Htest :
      (first <~ item_int x 0 ;;
       role <~ item_str first (py "role") ;;
       ret (negb (bool_decide (role = py "system")))) w =
      (Return (negb (bool_decide (r = py "system"))), w)).
    { rewrite (bind_run _ _ _ _ _ (item_int_run x i0 _ 0 w Hx eq_refl)).
      rewrite (bind_run _ _ _ _ _ (item_str_run _ _ _ _ _ Hm0 Hr)).
      reflexivity. }
    rewrite (bind_run _ _ _ _ _ Htest).
    assert (Hlead : leading_system (m0 :: hrest) = bool_decide (r = py "system")).
    { simpl. rewrite Hr. apply bool_decide_ext. split; congruence. }
    destruct (bool_decide (r = py "system")) eqn:Hsys; simpl negb.
    + (* a system message leads: the list is used as it is *)
      rewrite (bind_run (ret x) _ w w x eq_refl).
      exists x, (i0 :: rest), (i0 :: rest), w.
      unfold working. rewrite Hlead.
      repeat split; try assumption; try reflexivity.
      * apply mapM_Some, Hms.
      * intros l m Hl. left. exact Hl.
      * apply finish_run; [exact Hx | apply mapM_Some, Hms].
    + destruct (Hpre Hlead)
        as (cur & cur_items & w1 & Hg & Hcur & Hw & Hd & Hnew & Hk).
      rewrite Hk.
      exists cur, (i0 :: rest), cur_items, w1. rewrite Hlead.
      repeat split; try apply Hg; try assumption.
      apply finish_run; assumption.
Qed.

End Run.

(** ** Reading the response *)

Section Reply.

Lemma py_index_0 {A} (l : list A) (a : A) :
  py_index l 0 = Some a <-> exists r, l = a :: r.
Proof.
  unfold py_index. simpl. destruct l as [|b r]; simpl.
  - split; [discriminate | intros [? [=]]].
  - split.
    + intros [= ->]. exists r. reflexivity.
    + intros [? [= -> _]]. reflexivity.
Qed.

Lemma assistant_reply_well_formed (v : pyval) (text : list N) :
  well_formed v text -> assistant_reply v = Return (strip text).
Proof.
  intros (d & dc & rest & dm & -> & Hc & Hm & Ht).
  unfold assistant_reply. simpl. rewrite Hc. simpl.
  rewrite Hm. simpl. rewrite Ht. reflexivity.
Qed.

Lemma assistant_reply_Return (v : pyval) (s : list N) :
  assistant_reply v = Return s ->
  exists text, well_formed v text /\ s = strip text.
Proof.
  unfold assistant_reply.
  destruct v as [| | | |items|d]; try discriminate. simpl.
  destruct (d !! py "choices") as [choices|] eqn:Hc; [|discriminate]. simpl.
  destruct choices as [| | |t|items|d']; try discriminate.
  - simpl. destruct (py_index t 0); discriminate.
  - simpl. destruct (py_index items 0) as [choice|] eqn:Hi; [|discriminate].
    apply py_index_0 in Hi as [rest ->]. simpl.
    destruct choice as [| | | |?|dc]; try discriminate. simpl.
    destruct (dc !! py "message") as [msg|] eqn:Hm; [|discriminate]. simpl.
    destruct msg as [| | | |?|dm]; try discriminate. simpl.
    destruct (dm !! py "content") as [c|] eqn:Ht; [|discriminate]. simpl.
    destruct c as [| | |text| |]; try discriminate.
    intros [= <-]. exists text. split; [|reflexivity].
    exists d, dc, rest, dm. repeat split; assumption.
Qed.

Lemma assistant_reply_Raise (v : pyval) (e : exn) :
  assistant_reply v = Raise e -> lookup_error e.
Proof.
  unfold assistant_reply.
  destruct v as [| | | |items|d]; simpl; try (intros [= <-]; exact I).
  destruct (d !! py "choices") as [choices|]; simpl;
    [|intros [= <-]; exact I].
  destruct choices as [| | |t|items|d']; simpl;
    try (intros [= <-]; exact I).
  - destruct (py_index t 0); simpl; intros [= <-]; exact I.
  - destruct (py_index items 0) as [choice|]; simpl;
      [|intros [= <-]; exact I].
    destruct choice as [| | | |?|dc]; simpl; try (intros [= <-]; exact I).
    destruct (dc !! py "message") as [msg|]; simpl;
      [|intros [= <-]; exact I].
    destruct msg as [| | | |?|dm]; simpl; try (intros [= <-]; exact I).
    destruct (dm !! py "content") as [c|]; simpl;
      [|intros [= <-]; exact I].
    destruct c as [| | |text| |]; simpl; intros [= <-]; exact I.
Qed.

Lemma assistant_reply_malformed (v : pyval) :
  (forall text, ~ well_formed v text) ->
  exists e, assistant_reply v = Raise e /\ lookup_error e.
Proof.
  intros Hno. destruct (assistant_reply v) as [s|e] eqn:Hr.
  - apply assistant_reply_Return in Hr as (text & Hwf & _).
    destruct (Hno text Hwf).
  - exists e. split; [reflexivity|]. eapply assistant_reply_Raise, Hr.
Qed.

End Reply.

(** ** What a call may touch *)

Section Frame.

Context (provider : nat -> request -> outcome).

Lemma grown_served (w w' : world) : grown w w' -> served 0 w w'.
Proof.
  intros [H E Mo C]. split; try assumption.
  exists []. rewrite app_nil_r. split; [assumption|].
  split; [reflexivity | constructor].
Qed.

Lemma served_weaken (a b : nat) (w w' : world) :
  (a <= b)%nat -> served a w w' -> served b w w'.
Proof.
  intros Hab [H E Mo (rs & C & L & F)]. split; try assumption.
  exists rs. split; [assumption|]. split; [lia | assumption].
Qed.

Lemma served_trans (a b : nat) (w1 w2 w3 : world) :
  served a w1 w2 -> served b w2 w3 -> served (a + b) w1 w3.
Proof.
  intros [H1 E1 M1 (r1 & C1 & L1 & F1)] [H2 E2 M2 (r2 & C2 & L2 & F2)].
  split.
  - etrans; eassumption.
  - congruence.
  - congruence.
  - exists (r1 ++ r2). split; [|split].
    + rewrite C2, C1, app_assoc. reflexivity.
    + rewrite length_app. lia.
    + apply Forall_app. split; [assumption|].
      rewrite M1 in F2. assumption.
Qed.

Lemma served_bind {A B} (a b : nat) (m : M A) (k : A -> M B) (w : world) :
  served a w (snd (m w)) ->
  (forall x, asks b (k x)) ->
  served (a + b) w (snd (bind m k w)).
Proof.
  unfold bind. destruct (m w) as [[x|e] w']; simpl; intros Hm Hk.
  - eapply served_trans; [exact Hm | apply Hk].
  - eapply served_weaken; [|exact Hm]. lia.
Qed.

Lemma asks_bind {A B} (m : M A) (k : A -> M B) (b : nat) :
  asks 0 m -> (forall x, asks b (k x)) -> asks b (bind m k).
Proof. intros Hm Hk w. apply (served_bind 0 b), Hk. apply Hm. Qed.

Lemma asks_ret {A} (a : A) : asks 0 (ret a).
Proof. intros w. apply grown_served, grown_refl. Qed.

Lemma asks_raise {A} (e : exn) : asks 0 (raise e : M A).
Proof. intros w. apply grown_served, grown_refl. Qed.

Lemma asks_lift {A} (r : result A) : asks 0 (lift r).
Proof. intros w. apply grown_served, grown_refl. Qed.

Lemma asks_deref (x : loc) : asks 0 (deref x).
Proof.
  intros w. unfold deref. destruct (heap w !! x);
    apply grown_served, grown_refl.
Qed.

Lemma asks_alloc (o : obj) : asks 0 (alloc o).
Proof.
  intros w. destruct (alloc_run o w) as (x & w' & -> & _ & _ & Hg).
  apply grown_served, Hg.
Qed.

Lemma asks_py_not (x : loc) : asks 0 (py_not x).
Proof. apply asks_bind; [apply asks_deref | intros o; apply asks_ret]. Qed.

Lemma asks_item_int (x : loc) (i : Z) : asks 0 (item_int x i).
Proof.
  apply asks_bind; [apply asks_deref|]. intros [items|d].
  - destruct (py_index items i); [apply asks_ret | apply asks_raise].
  - apply asks_raise.
Qed.

Lemma asks_item_str (x : loc) (k : list N) : asks 0 (item_str x k).
Proof.
  apply asks_bind; [apply asks_deref|]. intros [items|d].
  - apply asks_raise.
  - destruct (d !! k); [apply asks_ret | apply asks_raise].
Qed.

Lemma asks_list_add (a b : loc) : asks 0 (list_add a b).
Proof.
  apply asks_bind; [apply asks_deref|]. intros oa.
  apply asks_bind; [apply asks_deref|]. intros ob.
  destruct oa, ob; first [apply asks_alloc | apply asks_raise].
Qed.

Lemma asks_new_dicts (ms : list message) : asks 0 (new_dicts ms).
Proof.
  induction ms as [|m r IH]; simpl; [apply asks_ret|].
  apply asks_bind; [apply asks_alloc|]. intros x.
  apply asks_bind; [exact IH|]. intros xs. apply asks_ret.
Qed.

Lemma asks_new_conversation (ms : list message) :
  asks 0 (new_conversation ms).
Proof.
  apply asks_bind; [apply asks_new_dicts | intros xs; apply asks_alloc].
Qed.

Lemma served_litellm_completion (x : loc) (w : world) :
  served 1 w (snd (litellm_completion provider (MODEL_NAME w) x w)).
Proof.
  unfold litellm_completion. destruct (snapshot (heap w) x) as [ms|].
  - assert (H : served 1 w (log (mk_request (MODEL_NAME w) ms) w)).
    { split; try reflexivity.
      exists [mk_request (MODEL_NAME w) ms]. split; [reflexivity|].
      split; [simpl; lia|].
      constructor; [reflexivity | constructor]. }
    destruct (provider _ _); exact H.
  - eapply served_weaken; [|apply grown_served, grown_refl]. lia.
Qed.

(** Whatever it is given, a call leaves the objects of the store, the
    environment and the model name as they are, and sends at most one
    request. *)
Lemma get_agent_response_frame (x : loc) :
  asks 1 (get_agent_response provider x).
Proof.
  unfold get_agent_response.
  apply asks_bind; [apply asks_py_not|]. intros empty.
  apply asks_bind.
  { destruct empty; [apply asks_ret|].
    apply asks_bind; [apply asks_item_int|]. intros first.
    apply asks_bind; [apply asks_item_str|]. intros r. apply asks_ret. }
  intros prepend. apply asks_bind.
  { destruct prepend; [|apply asks_ret].
    apply asks_bind; [apply asks_alloc|]. intros d.
    apply asks_bind; [apply asks_alloc|]. intros l. apply asks_list_add. }
  intros cur w.
  rewrite (bind_run (global MODEL_NAME) _ w w (MODEL_NAME w) eq_refl).
  apply (served_bind 1 0); [apply served_litellm_completion|].
  intros completion.
  apply asks_bind; [apply asks_lift|]. intros s.
  apply asks_bind; [apply asks_alloc|]. intros d.
  apply asks_bind; [apply asks_alloc|]. intros l. apply asks_list_add.
Qed.

Lemma step_served (a : action) (w : world) :
  heap w ⊆ heap (step provider a w) /\
  MODEL_NAME (step provider a w) = MODEL_NAME w /\
  exists rs, calls (step provider a w) = calls w ++ rs /\
             Forall (fun r => req_model r = MODEL_NAME w) rs.
Proof.
  destruct a as [history|k v|k]; simpl.
  - assert (H : served (0 + 1) w
      (snd ((x <~ new_conversation history ;;
             get_agent_response provider x) w))).
    { apply served_bind; [apply asks_new_conversation|].
      intros x. apply get_agent_response_frame. }
    destruct H as [H E Mo (rs & C & L & F)].
    repeat split; try assumption. exists rs. split; assumption.
  - repeat split; try reflexivity. exists []. rewrite app_nil_r.
    split; [reflexivity | constructor].
  - repeat split; try reflexivity. exists []. rewrite app_nil_r.
    split; [reflexivity | constructor].
Qed.

Lemma run_model (acts : list action) (w : world) (m : list N) :
  MODEL_NAME w = m ->
  Forall (fun r => req_model r = m) (calls w) ->
  MODEL_NAME (run provider acts w) = m /\
  Forall (fun r => req_model r = m) (calls (run provider acts w)).
Proof.
  revert w. induction acts as [|a acts IH]; intros w Hm Hc; simpl.
  - split; assumption.
  - destruct (step_served a w) as (_ & Hm' & rs & Hcalls & Hrs).
    apply IH.
    + congruence.
    + rewrite Hcalls. apply Forall_app. split; [assumption|].
      rewrite Hm in Hrs. exact Hrs.
Qed.

End Frame.

(** ** The shape of every call *)

Section Cases.

Context (provider : nat -> request -> outcome).

(** A call on a list [x] of dicts first builds, when no system message
    leads, one dict [d0] and the working list in a world [w1]; it then
    sends one request; a reply that can be read adds one dict [d] and the
    result list [y]. *)
Lemma get_agent_response_cases (x : loc) (history : list message)
    (w : world) :
  snapshot (heap w) x = Some history ->
  head_has_role history ->
  exists items pre w1,
    heap w !! x = Some (OList items) /\
    grown w w1 /\
    (if leading_system history then pre = [] /\ w1 = w
     else exists d0, pre = [d0] /\ heap w !! d0 = None /\
                     heap w1 !! d0 = Some (ODict system_message)) /\
    (forall l m, heap w1 !! l = Some (ODict m) ->
                 heap w !! l = Some (ODict m) \/ m = system_message) /\
    match answer provider w history with
    | Raised e =>
        get_agent_response provider x w =
          (Raise e, log (submitted w history) w1)
    | Returned v =>
        match assistant_reply v with
        | Raise e =>
            get_agent_response provider x w =
              (Raise e, log (submitted w history) w1)
        | Return s =>
            exists d y w2,
              get_agent_response provider x w = (Return y, w2) /\
              grown (log (submitted w history) w1) w2 /\
              heap w1 !! d = None /\ heap w1 !! y = None /\
              heap w2 !! d = Some (ODict (assistant_message s)) /\
              heap w2 !! y = Some (OList (pre ++ items ++ [d])) /\
              snapshot (heap w2) y =
                Some (working history ++ [assistant_message s]) /\
              (forall l m, heap w2 !! l = Some (ODict m) ->
                           heap w1 !! l = Some (ODict m) \/
                           m = assistant_message s)
        end
    end.
Proof.
  intros Hsnap Hrole.
  destruct (get_agent_response_run provider x history w Hsnap Hrole)
    as (cur & items & cur_items & w1 & Hx & Hg & Hcur & Hw & Hlead & Hnew
        & Hfin).
  assert (Hpre : exists pre, cur_items = pre ++ items /\
    (if leading_system history then pre = [] /\ w1 = w
     else exists d0, pre = [d0] /\ heap w !! d0 = None /\
                     heap w1 !! d0 = Some (ODict system_message))).
  { destruct (leading_system history).
    - destruct Hlead as [-> ->]. exists []. split; [|split; reflexivity].
      simpl. congruence.
    - destruct Hlead as (d0 & -> & Hd0 & _ & Hd1).
      exists [d0]. split; [reflexivity|]. exists d0.
      repeat split; assumption. }
  destruct Hpre as (pre & -> & Hpre).
  exists items, pre, w1. repeat split; try apply Hg; try assumption.
  unfold finished in Hfin. unfold answer, submitted.
  rewrite (grown_model _ _ Hg), (grown_calls _ _ Hg) in Hfin.
  destruct (provider _ _) as [v|e]; [|exact Hfin].
  destruct (assistant_reply v) as [s|e]; [|exact Hfin].
  destruct Hfin as (d & y & w2 & Hres & Hg2 & Hd & Hy & Hd2 & Hy2 & Hms & Hn).
  exists d, y, w2. rewrite <- app_assoc in Hy2, Hms.
  repeat split; try apply Hg2; try assumption.
  apply snapshot_Some. exists (pre ++ items ++ [d]). split; assumption.
Qed.

End Cases.

(** ** Consequences shared by the statements *)

Section Shared.

Context (provider : nat -> request -> outcome).

Lemma role_role_content (r c : list N) : role (role_content r c) = Some r.
Proof.
  unfold role, role_content. rewrite lookup_insert_ne.
  - apply lookup_insert_eq.
  - intros H. vm_compute in H. discriminate.
Qed.

Lemma content_role_content (r c : list N) :
  content (role_content r c) = Some c.
Proof. unfold content, role_content. apply lookup_insert_eq. Qed.

Lemma is_system_system_message : is_system system_message = true.
Proof.
  unfold is_system, system_message. rewrite role_role_content.
  apply bool_decide_eq_true_2. reflexivity.
Qed.

Lemma is_system_assistant_message (s : list N) :
  is_system (assistant_message s) = false.
Proof.
  unfold is_system, assistant_message. rewrite role_role_content.
  apply bool_decide_eq_false_2. intros H. vm_compute in H. discriminate.
Qed.

Lemma leading_system_working (history : list message) :
  leading_system (working history) = true.
Proof.
  unfold working. destruct (leading_system history) eqn:H; [exact H|].
  apply is_system_system_message.
Qed.

Lemma leading_system_app (ms : list message) (m : message) :
  leading_system ms = true -> leading_system (ms ++ [m]) = true.
Proof. destruct ms; [discriminate | intros H; exact H]. Qed.

Lemma leading_system_has_role (history : list message) :
  leading_system history = true -> head_has_role history.
Proof.
  destruct history as [|m r]; simpl; [discriminate|].
  intros H. apply bool_decide_eq_true_1 in H. rewrite H. eexists. reflexivity.
Qed.

Lemma count_system_snoc (ms : list message) (s : list N) :
  count_system (ms ++ [assistant_message s]) = count_system ms.
Proof.
  unfold count_system. rewrite filter_app, length_app.
  rewrite filter_cons_False, filter_nil.
  - simpl. lia.
  - rewrite is_system_assistant_message. discriminate.
Qed.

(** One request is logged, whatever the provider answers. *)
Lemma call_logged (x : loc) (history : list message) (w : world) :
  snapshot (heap w) x = Some history ->
  head_has_role history ->
  calls (snd (get_agent_response provider x w)) =
    calls w ++ [submitted w history].
Proof.
  intros Hs Hr.
  destruct (get_agent_response_cases provider x history w Hs Hr)
    as (items & pre & w1 & _ & Hg & _ & _ & Hcase).
  assert (Hlog : calls (log (submitted w history) w1) =
                 calls w ++ [submitted w history]).
  { simpl. rewrite (grown_calls _ _ Hg). reflexivity. }
  destruct (answer provider w history) as [v|e].
  - destruct (assistant_reply v) as [s|e].
    + destruct Hcase as (d & y & w2 & -> & Hg2 & _). simpl.
      rewrite (grown_calls _ _ Hg2). exact Hlog.
    + rewrite Hcase. exact Hlog.
  - rewrite Hcase. exact Hlog.
Qed.

(** The dicts a call creates: the system message when none leads, and
    the reply. *)
Lemma call_new_dicts (x : loc) (history : list message) (w : world)
    (l : loc) (m : message) :
  snapshot (heap w) x = Some history ->
  head_has_role history ->
  heap (snd (get_agent_response provider x w)) !! l = Some (ODict m) ->
  heap w !! l = Some (ODict m) \/
  (leading_system history = false /\ m = system_message) \/
  (exists y s, fst (get_agent_response provider x w) = Return y /\
               m = assistant_message s).
Proof.
  intros Hs Hr.
  destruct (get_agent_response_cases provider x history w Hs Hr)
    as (items & pre & w1 & _ & Hg & Hlead & Hnew & Hcase).
  assert (Hw1 : heap w1 !! l = Some (ODict m) ->
    heap w !! l = Some (ODict m) \/
    (leading_system history = false /\ m = system_message)).
  { intros H. destruct (leading_system history).
    - destruct Hlead as [_ ->]. left. exact H.
    - destruct (Hnew l m H) as [Ho| ->]; [left; exact Ho|].
      right. split; reflexivity. }
  destruct (answer provider w history) as [v|e].
  - destruct (assistant_reply v) as [s|e].
    + destruct Hcase as (d & y & w2 & -> & _ & _ & _ & _ & _ & _ & Hn2).
      simpl. intros H. destruct (Hn2 l m H) as [H1| ->].
      * destruct (Hw1 H1) as [?|?]; [left | right; left]; assumption.
      * right. right. exists y, s. split; reflexivity.
    + rewrite Hcase. simpl. intros H.
      destruct (Hw1 H) as [?|?]; [left | right; left]; assumption.
  - rewrite Hcase. simpl. intros H.
    destruct (Hw1 H) as [?|?]; [left | right; left]; assumption.
Qed.

(** A call that returns, returns the working sequence and one reply. *)
Lemma call_returns (x y : loc) (history : list message) (w : world) :
  snapshot (heap w) x = Some history ->
  head_has_role history ->
  fst (get_agent_response provider x w) = Return y ->
  exists s,
    snapshot (heap (snd (get_agent_response provider x w))) y =
      Some (working history ++ [assistant_message s]).
Proof.
  intros Hs Hr.
  destruct (get_agent_response_cases provider x history w Hs Hr)
    as (items & pre & w1 & _ & _ & _ & _ & Hcase).
  destruct (answer provider w history) as [v|e].
  - destruct (assistant_reply v) as [s|e].
    + destruct Hcase as (d & y' & w2 & -> & _ & _ & _ & _ & _ & Hsnap & _).
      simpl. intros [= <-]. exists s. exact Hsnap.
    + rewrite Hcase. discriminate.
  - rewrite Hcase. discriminate.
Qed.

(** A reply that can be read makes the call return. *)
Lemma call_succeeds (x : loc) (history : list message) (w : world)
    (v : pyval) (text : list N) :
  snapshot (heap w) x = Some history ->
  head_has_role history ->
  answer provider w history = Returned v ->
  well_formed v text ->
  exists items pre d y w',
    get_agent_response provider x w = (Return y, w') /\
    heap w !! x = Some (OList items) /\
    heap w' !! y = Some (OList (pre ++ items ++ [d])) /\
    heap w !! d = None /\ heap w !! y = None /\
    heap w' !! d = Some (ODict (assistant_message (strip text))) /\
    heap w ⊆ heap w' /\
    snapshot (heap w') y =
      Some (working history ++ [assistant_message (strip text)]).
Proof.
  intros Hs Hr Ha Hwf.
  destruct (get_agent_response_cases provider x history w Hs Hr)
    as (items & pre & w1 & Hx & Hg & _ & _ & Hcase).
  rewrite Ha, (assistant_reply_well_formed v text Hwf) in Hcase.
  destruct Hcase as (d & y & w2 & Hrun & Hg2 & Hd & Hy & Hd2 & Hy2 & Hsnap & _).
  exists items, pre, d, y, w2.
  assert (Hsub : heap w ⊆ heap w2).
  { etrans; [apply (grown_heap _ _ Hg) | apply (grown_heap _ _ Hg2)]. }
  repeat split; try assumption.
  - eapply lookup_weaken_None; [exact Hd | apply (grown_heap _ _ Hg)].
  - eapply lookup_weaken_None; [exact Hy | apply (grown_heap _ _ Hg)].
Qed.

End Shared.

(** ** The function on sample conversations *)

Example reply_to_empty :
  reply_to (answers boiled) [] =
    Return [role_content (py "system") SYSTEM_PROMPT;
            role_content (py "assistant") (py "Boil it.")].
Proof. vm_compute. reflexivity. Qed.

Example reply_to_pasta :
  reply_to (answers boiled) pasta =
    Return [role_content (py "system") SYSTEM_PROMPT;
            user_says "Give me a pasta recipe";
            role_content (py "assistant") (py "Boil it.")].
Proof. vm_compute. reflexivity. Qed.

Example reply_to_briefed :
  reply_to (answers boiled) briefed =
    Return (briefed ++ [role_content (py "assistant") (py "Boil it.")]).
Proof. vm_compute. reflexivity. Qed.

Example reply_to_time_out :
  reply_to (fails (LibraryError (py "Timeout"))) pasta =
    Raise (LibraryError (py "Timeout")).
Proof. vm_compute. reflexivity. Qed.

Example reply_to_no_choices :
  reply_to (answers (VDict ∅)) pasta = Raise (KeyError (KStr (py "choices"))).
Proof. vm_compute. reflexivity. Qed.

Example reply_to_empty_choices :
  reply_to (answers (VDict {[ py "choices" := VList [] ]})) pasta =
    Raise IndexError.
Proof. vm_compute. reflexivity. Qed.

Example reply_to_null_content :
  reply_to (answers (reply_of VNone)) pasta = Raise AttributeError.
Proof. vm_compute. reflexivity. Qed.

Example reply_to_no_role :
  reply_to (answers boiled) [{[ py "content" := py "hello" ]}] =
    Raise (KeyError (KStr (py "role"))).
Proof. vm_compute. reflexivity. Qed.

Example import_default :
  MODEL_NAME (import_utils ∅ ∅) = py "gpt-4o-mini".
Proof. vm_compute. reflexivity. Qed.

Example import_environment_first :
  MODEL_NAME (import_utils {[ py "MODEL_NAME" := py "gpt-4o" ]}
                {[ py "MODEL_NAME" := py "claude" ]}) = py "claude".
Proof. vm_compute. reflexivity. Qed.

Example import_dotenv :
  MODEL_NAME (import_utils {[ py "MODEL_NAME" := py "gpt-4o" ]} ∅) =
    py "gpt-4o".
Proof. vm_compute. reflexivity. Qed.

Example import_set_but_empty :
  MODEL_NAME (import_utils ∅ {[ py "MODEL_NAME" := py "" ]}) = py "".
Proof. vm_compute. reflexivity. Qed.

(** X1. When the first dict of the conversation has no ["role"] key, the
    call raises [KeyError("role")] and leaves the world as it was: nothing
    is built and no request is sent. *)
Lemma missing_role (provider : nat -> request -> outcome) (x : loc)
    (m : message) (rest : list message) (w : world) :
  snapshot (heap w) x = Some (m :: rest) ->
  role m = None ->
  get_agent_response provider x w = (Raise (KeyError (KStr (py "role"))), w).
Proof.
  intros Hs Hm. apply snapshot_Some in Hs as (items & Hx & Hms).
  apply mapM_Some in Hms.
  inversion Hms as [|i0 ? irest ? Hm0 _]; subst.
  apply message_at_Some in Hm0.
  unfold get_agent_response.
  rewrite (bind_run _ _ _ _ _ (py_not_run _ _ _ Hx)).
  rewrite bool_decide_eq_false_2 by discriminate.
  apply bind_raise.
  rewrite (bind_run _ _ _ _ _ (item_int_run x i0 _ 0 w Hx eq_refl)).
  apply bind_raise. unfold item_str.
  rewrite (bind_run _ _ _ _ _ (deref_run _ _ _ Hm0)).
  unfold role in Hm. rewrite Hm. reflexivity.
Qed.

(** * The statements *)

Lemma well_formed_reply_of (text : list N) :
  well_formed (reply_of (VStr text)) text.
Proof.
  unfold well_formed, reply_of. do 4 eexists.
  split; [reflexivity|]. split; [apply lookup_singleton_eq|].
  split; [apply lookup_singleton_eq|].
  rewrite lookup_insert_ne; [apply lookup_singleton_eq|].
  intros H. vm_compute in H. discriminate.
Qed.

Lemma held_pasta : snapshot (heap (snd (held pasta))) (fst (held pasta)) = Some pasta.
Proof. vm_compute. reflexivity. Qed.

Lemma held_briefed :
  snapshot (heap (snd (held briefed))) (fst (held briefed)) = Some briefed.
Proof. vm_compute. reflexivity. Qed.

Lemma pasta_has_role : head_has_role pasta.
Proof. exists (py "user"). vm_compute. reflexivity. Qed.

(** C1. The request sent to the provider carries the working sequence: the
    history itself when a message of role ["system"] leads it, and otherwise
    (the empty history included) one message of role ["system"] whose
    content is [SYSTEM_PROMPT], followed by the whole history in order. *)
Theorem working_sequence_submitted (provider : nat -> request -> outcome)
    (x : loc) (history : list message) (w : world) :
  snapshot (heap w) x = Some history ->
  head_has_role history ->
  calls (snd (get_agent_response provider x w)) =
    calls w ++
    [mk_request (MODEL_NAME w)
       (match history with
        | [] => [system_message]
        | m :: _ =>
            if bool_decide (role m = Some (py "system")) then history
            else system_message :: history
        end)] /\
  role system_message = Some (py "system") /\
  content system_message = Some SYSTEM_PROMPT.
Proof.
  intros Hs Hr. split; [|split].
  - rewrite (call_logged provider x history w Hs Hr).
    unfold submitted, working, leading_system.
    destruct history as [|m rest]; reflexivity.
  - apply role_role_content.
  - apply content_role_content.
Qed.

Lemma working_sequence_submitted_witness :
  calls (snd (get_agent_response (answers boiled) (fst (held pasta))
                (snd (held pasta)))) =
    [mk_request (py "gpt-4o-mini") (system_message :: pasta)].
Proof.
  apply (working_sequence_submitted (answers boiled) (fst (held pasta)) pasta
           (snd (held pasta)) held_pasta pasta_has_role).
Defined.

(** C2. When the provider's reply can be read, the call returns a new list
    object holding the working sequence followed by exactly one new message:
    one element longer, every element of the working sequence at its
    position, the dicts of the input being the very objects of the result,
    and every object of the store before the call, the input list and its
    dicts among them, unchanged. *)
Theorem reply_appended_to_new_list (provider : nat -> request -> outcome)
    (x : loc) (history : list message) (w : world) (v : pyval)
    (text : list N) :
  snapshot (heap w) x = Some history ->
  head_has_role history ->
  answer provider w history = Returned v ->
  well_formed v text ->
  exists y w' result items pre d m,
    get_agent_response provider x w = (Return y, w') /\
    snapshot (heap w') y = Some result /\
    result = working history ++ [m] /\
    length result = S (length (working history)) /\
    (forall i msg, working history !! i = Some msg -> result !! i = Some msg) /\
    heap w !! x = Some (OList items) /\
    heap w' !! y = Some (OList (pre ++ items ++ [d])) /\
    heap w' !! d = Some (ODict m) /\
    heap w !! d = None /\
    heap w !! y = None /\
    heap w ⊆ heap w' /\
    snapshot (heap w') x = Some history.
Proof.
  intros Hs Hr Ha Hwf.
  destruct (call_succeeds provider x history w v text Hs Hr Ha Hwf)
    as (items & pre & d & y & w' & Hrun & Hx & Hy & Hd & Hyn & Hd' & Hsub & Hsnap).
  exists y, w', (working history ++ [assistant_message (strip text)]),
    items, pre, d, (assistant_message (strip text)).
  repeat split; try assumption.
  - rewrite length_app. simpl. lia.
  - intros i msg Hi. apply lookup_app_l_Some, Hi.
  - eapply snapshot_mono; eassumption.
Qed.

Lemma reply_appended_to_new_list_witness :
  exists y w' result items pre d m,
    get_agent_response (answers boiled) (fst (held pasta)) (snd (held pasta)) =
      (Return y, w') /\
    snapshot (heap w') y = Some result /\
    result = working pasta ++ [m] /\
    length result = S (length (working pasta)) /\
    (forall i msg, working pasta !! i = Some msg -> result !! i = Some msg) /\
    heap (snd (held pasta)) !! fst (held pasta) = Some (OList items) /\
    heap w' !! y = Some (OList (pre ++ items ++ [d])) /\
    heap w' !! d = Some (ODict m) /\
    heap (snd (held pasta)) !! d = None /\
    heap (snd (held pasta)) !! y = None /\
    heap (snd (held pasta)) ⊆ heap w' /\
    snapshot (heap w') (fst (held pasta)) = Some pasta.
Proof.
  apply (reply_appended_to_new_list (answers boiled) (fst (held pasta)) pasta
           (snd (held pasta)) boiled (py "  Boil it.  ")
           held_pasta pasta_has_role eq_refl
           (well_formed_reply_of (py "  Boil it.  "))).
Defined.

(** C3. When the provider's reply can be read, the last message of the
    returned sequence has role ["assistant"], and its content is the text of
    the reply with its leading and trailing white space removed: the text
    is that content between a run of white space and another, and no white
    space leads the content and none trails it. *)
Theorem appended_message_is_stripped_reply
    (provider : nat -> request -> outcome)
    (x : loc) (history : list message) (w : world) (v : pyval)
    (text : list N) :
  snapshot (heap w) x = Some history ->
  head_has_role history ->
  answer provider w history = Returned v ->
  well_formed v text ->
  exists y w' result m c p q,
    get_agent_response provider x w = (Return y, w') /\
    snapshot (heap w') y = Some result /\
    last result = Some m /\
    role m = Some (py "assistant") /\
    content m = Some c /\
    text = p ++ c ++ q /\
    forallb isspace p = true /\
    forallb isspace q = true /\
    trimmed c.
Proof.
  intros Hs Hr Ha Hwf.
  destruct (call_succeeds provider x history w v text Hs Hr Ha Hwf)
    as (items & pre & d & y & w' & Hrun & _ & _ & _ & _ & _ & _ & Hsnap).
  destruct (strip_split text) as (p & q & Ht & Hp & Hq).
  exists y, w', (working history ++ [assistant_message (strip text)]),
    (assistant_message (strip text)), (strip text), p, q.
  split; [exact Hrun|]. split; [exact Hsnap|].
  split; [apply last_snoc|]. split; [apply role_role_content|].
  split; [apply content_role_content|]. split; [exact Ht|].
  split; [exact Hp|]. split; [exact Hq | apply strip_trimmed].
Qed.

Lemma appended_message_is_stripped_reply_witness :
  exists y w' result m c p q,
    get_agent_response (answers boiled) (fst (held pasta)) (snd (held pasta)) =
      (Return y, w') /\
    snapshot (heap w') y = Some result /\
    last result = Some m /\
    role m = Some (py "assistant") /\
    content m = Some c /\
    py "  Boil it.  " = p ++ c ++ q /\
    forallb isspace p = true /\
    forallb isspace q = true /\
    trimmed c.
Proof.
  apply (appended_message_is_stripped_reply (answers boiled)
           (fst (held pasta)) pasta (snd (held pasta)) boiled
           (py "  Boil it.  ") held_pasta pasta_has_role eq_refl
           (well_formed_reply_of (py "  Boil it.  "))).
Defined.

Lemma raise_not_well_formed (v : pyval) (e : exn) :
  assistant_reply v = Raise e -> forall text, ~ well_formed v text.
Proof.
  intros Hr text Hwf. rewrite (assistant_reply_well_formed v text Hwf) in Hr.
  discriminate.
Qed.

(** The failures the specification names: no choices, an empty list of
    choices, a message without content, a content that is no text. *)
Lemma no_choices (d : gmap (list N) pyval) :
  d !! py "choices" = None ->
  assistant_reply (VDict d) = Raise (KeyError (KStr (py "choices"))).
Proof. intros H. unfold assistant_reply. simpl. rewrite H. reflexivity. Qed.

Lemma empty_choices (d : gmap (list N) pyval) :
  d !! py "choices" = Some (VList []) ->
  assistant_reply (VDict d) = Raise IndexError.
Proof. intros H. unfold assistant_reply. simpl. rewrite H. reflexivity. Qed.

Lemma missing_content (d dc dm : gmap (list N) pyval) (rest : list pyval) :
  d !! py "choices" = Some (VList (VDict dc :: rest)) ->
  dc !! py "message" = Some (VDict dm) ->
  dm !! py "content" = None ->
  assistant_reply (VDict d) = Raise (KeyError (KStr (py "content"))).
Proof.
  intros Hc Hm Ht. unfold assistant_reply. simpl. rewrite Hc. simpl.
  rewrite Hm. simpl. rewrite Ht. reflexivity.
Qed.

Lemma null_content : assistant_reply (reply_of VNone) = Raise AttributeError.
Proof. vm_compute. reflexivity. Qed.

(** C4, as stated, asks for a failure of kind [ProviderError].  The module
    wraps nothing: on a response dict without ["choices"] the provider has
    failed in the sense of the claim, and what reaches the caller is the
    [KeyError] of the subscript, which is no [ProviderError]. *)
Lemma provider_error_is_not_raised :
  snapshot (heap (snd (held pasta))) (fst (held pasta)) = Some pasta /\
  head_has_role pasta /\
  provider_failed (answer (answers (VDict ∅)) (snd (held pasta)) pasta) /\
  exists w',
    get_agent_response (answers (VDict ∅)) (fst (held pasta))
      (snd (held pasta)) = (Raise (KeyError (KStr (py "choices"))), w') /\
    ~ is_ProviderError (KeyError (KStr (py "choices"))).
Proof.
  split; [exact held_pasta|]. split; [exact pasta_has_role|]. split.
  - unfold answer, answers, provider_failed.
    apply (raise_not_well_formed (VDict ∅) (KeyError (KStr (py "choices")))).
    apply no_choices. apply lookup_empty.
  - eexists. split; [vm_compute; reflexivity|]. intros H. exact H.
Qed.

(** C4, amended. When the call to the provider raises (a time-out
    included), or returns a response that cannot be read (no choices, no
    content, ...), the function raises, and what it raises is not wrapped:
    it is the provider's own exception as it is, or the [KeyError],
    [IndexError], [TypeError] or [AttributeError] of the failed subscript or
    strip.  One request was sent and no more, the input conversation reads
    as before, no assistant message was built, and no list is returned. *)
Theorem provider_failure_propagates (provider : nat -> request -> outcome)
    (x : loc) (history : list message) (w : world) :
  snapshot (heap w) x = Some history ->
  head_has_role history ->
  provider_failed (answer provider w history) ->
  exists e w',
    get_agent_response provider x w = (Raise e, w') /\
    match answer provider w history with
    | Raised e0 => e = e0
    | Returned v => assistant_reply v = Raise e /\ lookup_error e
    end /\
    calls w' = calls w ++ [submitted w history] /\
    snapshot (heap w') x = Some history /\
    (forall l m, heap w' !! l = Some (ODict m) ->
                 heap w !! l = Some (ODict m) \/ m = system_message).
Proof.
  intros Hs Hr Hfail.
  destruct (get_agent_response_cases provider x history w Hs Hr)
    as (items & pre & w1 & _ & Hg & _ & Hnew & Hcase).
  assert (Hend : forall e,
    get_agent_response provider x w = (Raise e, log (submitted w history) w1) ->
    get_agent_response provider x w = (Raise e, log (submitted w history) w1) /\
    calls (log (submitted w history) w1) = calls w ++ [submitted w history] /\
    snapshot (heap (log (submitted w history) w1)) x = Some history /\
    (forall l m, heap (log (submitted w history) w1) !! l = Some (ODict m) ->
                 heap w !! l = Some (ODict m) \/ m = system_message)).
  { intros e He. split; [exact He|]. split; [|split].
    - simpl. rewrite (grown_calls _ _ Hg). reflexivity.
    - simpl. eapply snapshot_mono; [apply (grown_heap _ _ Hg) | exact Hs].
    - exact Hnew. }
  destruct (answer provider w history) as [v|e0].
  - destruct (assistant_reply_malformed v Hfail) as (e & He & Hle).
    rewrite He in Hcase.
    exists e, (log (submitted w history) w1).
    destruct (Hend e Hcase) as (H1 & H2 & H3 & H4).
    repeat split; assumption.
  - exists e0, (log (submitted w history) w1).
    destruct (Hend e0 Hcase) as (H1 & H2 & H3 & H4).
    repeat split; assumption.
Qed.

Lemma provider_failure_propagates_witness :
  exists e w',
    get_agent_response (fails (LibraryError (py "Timeout"))) (fst (held pasta))
      (snd (held pasta)) = (Raise e, w') /\
    e = LibraryError (py "Timeout") /\
    calls w' = [submitted (snd (held pasta)) pasta] /\
    snapshot (heap w') (fst (held pasta)) = Some pasta /\
    (forall l m, heap w' !! l = Some (ODict m) ->
                 heap (snd (held pasta)) !! l = Some (ODict m) \/
                 m = system_message).
Proof.
  apply (provider_failure_propagates (fails (LibraryError (py "Timeout")))
           (fst (held pasta)) pasta (snd (held pasta))
           held_pasta pasta_has_role I).
Defined.

(** C5. On a conversation led by a message of role ["system"], the call
    adds no system message: the request carries the history as it is, no
    dict of role ["system"] is created, and the returned sequence has as
    many system messages as the history. *)
Theorem no_second_system_message (provider : nat -> request -> outcome)
    (x : loc) (history : list message) (w : world) :
  snapshot (heap w) x = Some history ->
  leading_system history = true ->
  calls (snd (get_agent_response provider x w)) =
    calls w ++ [mk_request (MODEL_NAME w) history] /\
  (forall l m,
     heap (snd (get_agent_response provider x w)) !! l = Some (ODict m) ->
     heap w !! l = Some (ODict m) \/ is_system m = false) /\
  (forall y,
     fst (get_agent_response provider x w) = Return y ->
     exists result,
       snapshot (heap (snd (get_agent_response provider x w))) y =
         Some result /\
       count_system result = count_system history).
Proof.
  intros Hs Hlead.
  pose proof (leading_system_has_role history Hlead) as Hr.
  assert (Hw : working history = history).
  { unfold working. rewrite Hlead. reflexivity. }
  split; [|split].
  - rewrite (call_logged provider x history w Hs Hr).
    unfold submitted. rewrite Hw. reflexivity.
  - intros l m Hl.
    destruct (call_new_dicts provider x history w l m Hs Hr Hl)
      as [Hold|[[Hno _]|(y & s & _ & ->)]].
    + left. exact Hold.
    + congruence.
    + right. apply is_system_assistant_message.
  - intros y Hy.
    destruct (call_returns provider x y history w Hs Hr Hy) as [s Hsnap].
    rewrite Hw in Hsnap. eexists. split; [exact Hsnap|].
    apply count_system_snoc.
Qed.

Lemma no_second_system_message_witness :
  calls (snd (get_agent_response (answers boiled) (fst (held briefed))
                (snd (held briefed)))) =
    [mk_request (py "gpt-4o-mini") briefed].
Proof.
  apply (no_second_system_message (answers boiled) (fst (held briefed))
           briefed (snd (held briefed)) held_briefed eq_refl).
Defined.

(** C6. The sequence sent to the provider and the sequence returned are
    never empty and start with a message of role ["system"]. *)
Theorem system_message_leads (provider : nat -> request -> outcome)
    (x : loc) (history : list message) (w : world) :
  snapshot (heap w) x = Some history ->
  head_has_role history ->
  exists r m rest,
    calls (snd (get_agent_response provider x w)) = calls w ++ [r] /\
    req_messages r = m :: rest /\
    role m = Some (py "system") /\
    (forall y,
       fst (get_agent_response provider x w) = Return y ->
       exists rest',
         snapshot (heap (snd (get_agent_response provider x w))) y =
           Some (m :: rest')).
Proof.
  intros Hs Hr.
  pose proof (leading_system_working history) as Hlead.
  destruct (working history) as [|m rest] eqn:Hw; [discriminate|].
  exists (submitted w history), m, rest. split; [|split; [|split]].
  - apply call_logged; assumption.
  - unfold submitted. simpl. exact Hw.
  - simpl in Hlead. apply bool_decide_eq_true_1 in Hlead. exact Hlead.
  - intros y Hy.
    destruct (call_returns provider x y history w Hs Hr Hy) as [s Hsnap].
    rewrite Hw in Hsnap. exists (rest ++ [assistant_message s]). exact Hsnap.
Qed.

Lemma system_message_leads_witness :
  exists r m rest,
    calls (snd (get_agent_response (answers boiled) (fst (held pasta))
                  (snd (held pasta)))) = calls (snd (held pasta)) ++ [r] /\
    req_messages r = m :: rest /\
    role m = Some (py "system") /\
    (forall y,
       fst (get_agent_response (answers boiled) (fst (held pasta))
              (snd (held pasta))) = Return y ->
       exists rest',
         snapshot (heap (snd (get_agent_response (answers boiled)
                                (fst (held pasta)) (snd (held pasta))))) y =
           Some (m :: rest')).
Proof.
  apply (system_message_leads (answers boiled) (fst (held pasta)) pasta
           (snd (held pasta)) held_pasta pasta_has_role).
Defined.

(** C7. The model name is bound once, when the module is imported: to the
    value of [MODEL_NAME] in the environment (the process's own variables
    first, then those of the [.env] file), or to ["gpt-4o-mini"] when it is
    not set.  Whatever the host does afterwards, forwarding conversations
    or changing its environment, the binding stays as it was and every
    request sent carries it. *)
Theorem model_name_bound_at_import (provider : nat -> request -> outcome)
    (dotenv env : gmap (list N) (list N)) (acts : list action) :
  MODEL_NAME (import_utils dotenv env) =
    default (py "gpt-4o-mini") ((env ∪ dotenv) !! py "MODEL_NAME") /\
  MODEL_NAME (run provider acts (import_utils dotenv env)) =
    MODEL_NAME (import_utils dotenv env) /\
  Forall (fun r => req_model r = MODEL_NAME (import_utils dotenv env))
    (calls (run provider acts (import_utils dotenv env))).
Proof.
  split; [reflexivity|].
  apply (run_model provider acts (import_utils dotenv env)).
  - reflexivity.
  - constructor.
Qed.

(** C8. A call sends exactly one request to the provider, made of the model
    name and the working sequence and nothing else; the objects of the
    store, the environment and the model name are afterwards what they
    were. *)
Theorem one_request_no_mutation (provider : nat -> request -> outcome)
    (x : loc) (history : list message) (w : world) :
  snapshot (heap w) x = Some history ->
  head_has_role history ->
  calls (snd (get_agent_response provider x w)) =
    calls w ++ [mk_request (MODEL_NAME w) (working history)] /\
  heap w ⊆ heap (snd (get_agent_response provider x w)) /\
  environ (snd (get_agent_response provider x w)) = environ w /\
  MODEL_NAME (snd (get_agent_response provider x w)) = MODEL_NAME w.
Proof.
  intros Hs Hr.
  destruct (get_agent_response_frame provider x w) as [Hh He Hm _].
  split; [|split; [|split]]; try assumption.
  apply call_logged; assumption.
Qed.

Lemma one_request_no_mutation_witness :
  calls (snd (get_agent_response (fails IndexError) (fst (held pasta))
                (snd (held pasta)))) =
    [mk_request (py "gpt-4o-mini") (working pasta)].
Proof.
  apply (one_request_no_mutation (fails IndexError) (fst (held pasta)) pasta
           (snd (held pasta)) held_pasta pasta_has_role).
Defined.

(** C9. Only the role of the first message decides: when it is ["system"],
    whatever the content of that message, the request carries the history
    as it is, the only dict a call may create is the reply, and a call that
    returns, returns the history followed by the reply. *)
Theorem caller_system_message_kept (provider : nat -> request -> outcome)
    (x : loc) (m : message) (rest : list message) (w : world) :
  snapshot (heap w) x = Some (m :: rest) ->
  role m = Some (py "system") ->
  calls (snd (get_agent_response provider x w)) =
    calls w ++ [mk_request (MODEL_NAME w) (m :: rest)] /\
  (forall l m',
     heap (snd (get_agent_response provider x w)) !! l = Some (ODict m') ->
     heap w !! l = Some (ODict m') \/
     exists s, m' = assistant_message s) /\
  (forall y,
     fst (get_agent_response provider x w) = Return y ->
     exists s,
       snapshot (heap (snd (get_agent_response provider x w))) y =
         Some (m :: rest ++ [assistant_message s])).
Proof.
  intros Hs Hm.
  assert (Hlead : leading_system (m :: rest) = true).
  { simpl. apply bool_decide_eq_true_2, Hm. }
  pose proof (leading_system_has_role _ Hlead) as Hr.
  assert (Hw : working (m :: rest) = m :: rest).
  { unfold working. rewrite Hlead. reflexivity. }
  split; [|split].
  - rewrite (call_logged provider x _ w Hs Hr).
    unfold submitted. rewrite Hw. reflexivity.
  - intros l m' Hl.
    destruct (call_new_dicts provider x _ w l m' Hs Hr Hl)
      as [Hold|[[Hno _]|(y & s & _ & ->)]].
    + left. exact Hold.
    + congruence.
    + right. exists s. reflexivity.
  - intros y Hy.
    destruct (call_returns provider x y _ w Hs Hr Hy) as [s Hsnap].
    rewrite Hw in Hsnap. exists s. exact Hsnap.
Qed.

Lemma caller_system_message_kept_witness :
  calls (snd (get_agent_response (answers boiled) (fst (held briefed))
                (snd (held briefed)))) =
    [mk_request (py "gpt-4o-mini")
       [role_content (py "system") (py "");
        user_says "Give me a pasta recipe"]].
Proof.
  apply (caller_system_message_kept (answers boiled) (fst (held briefed))
           (role_content (py "system") (py ""))
           [user_says "Give me a pasta recipe"]
           (snd (held briefed)) held_briefed (role_role_content _ _)).
Defined.

(** C10. A reply that can be read and whose text is empty or all white
    space makes the call return: the message appended has role
    ["assistant"] and the empty string as its content. *)
Theorem blank_reply_gives_empty_content (provider : nat -> request -> outcome)
    (x : loc) (history : list message) (w : world) (v : pyval)
    (text : list N) :
  snapshot (heap w) x = Some history ->
  head_has_role history ->
  answer provider w history = Returned v ->
  well_formed v text ->
  forallb isspace text = true ->
  exists y w',
    get_agent_response provider x w = (Return y, w') /\
    snapshot (heap w') y =
      Some (working history ++ [role_content (py "assistant") []]).
Proof.
  intros Hs Hr Ha Hwf Hblank.
  destruct (call_succeeds provider x history w v text Hs Hr Ha Hwf)
    as (items & pre & d & y & w' & Hrun & _ & _ & _ & _ & _ & _ & Hsnap).
  rewrite (strip_spaces text Hblank) in Hsnap.
  exists y, w'. split; assumption.
Qed.

Lemma blank_reply_gives_empty_content_witness :
  exists y w',
    get_agent_response (answers (reply_of (VStr (py "   "))))
      (fst (held pasta)) (snd (held pasta)) = (Return y, w') /\
    snapshot (heap w') y =
      Some (working pasta ++ [role_content (py "assistant") []]).
Proof.
  apply (blank_reply_gives_empty_content (answers (reply_of (VStr (py "   "))))
           (fst (held pasta)) pasta (snd (held pasta))
           (reply_of (VStr (py "   "))) (py "   ")
           held_pasta pasta_has_role eq_refl
           (well_formed_reply_of (py "   ")) eq_refl).
Defined.

(** * More on the function *)

Lemma missing_role_witness :
  get_agent_response (answers boiled) (fst (held roleless)) (snd (held roleless)) =
    (Raise (KeyError (KStr (py "role"))), snd (held roleless)).
Proof.
  apply (missing_role (answers boiled) (fst (held roleless))
           {[ py "content" := py "hello" ]} [] (snd (held roleless))).
  - vm_compute. reflexivity.
  - vm_compute. reflexivity.
Defined.

(** What a call comes to when the response cannot be read: the exception
    of the reading, after the one request. *)
Lemma call_reading_error (provider : nat -> request -> outcome)
    (x : loc) (history : list message) (w : world) (v : pyval) (e : exn) :
  snapshot (heap w) x = Some history ->
  head_has_role history ->
  answer provider w history = Returned v ->
  assistant_reply v = Raise e ->
  fst (get_agent_response provider x w) = Raise e /\
  calls (snd (get_agent_response provider x w)) =
    calls w ++ [submitted w history].
Proof.
  intros Hs Hr Ha He. split; [|apply call_logged; assumption].
  destruct (get_agent_response_cases provider x history w Hs Hr)
    as (items & pre & w1 & _ & _ & _ & _ & Hcase).
  rewrite Ha, He in Hcase. rewrite Hcase. reflexivity.
Qed.

(** X3. A response dict without a ["choices"] key makes the call raise
    [KeyError("choices")], after the one request was sent. *)
Theorem no_choices_key_error (provider : nat -> request -> outcome)
    (x : loc) (history : list message) (w : world)
    (d : gmap (list N) pyval) :
  snapshot (heap w) x = Some history ->
  head_has_role history ->
  answer provider w history = Returned (VDict d) ->
  d !! py "choices" = None ->
  fst (get_agent_response provider x w) =
    Raise (KeyError (KStr (py "choices"))) /\
  calls (snd (get_agent_response provider x w)) =
    calls w ++ [submitted w history].
Proof.
  intros Hs Hr Ha Hd.
  apply (call_reading_error provider x history w (VDict d)); try assumption.
  apply no_choices, Hd.
Qed.

Lemma no_choices_key_error_witness :
  fst (get_agent_response (answers (VDict ∅)) (fst (held pasta))
         (snd (held pasta))) = Raise (KeyError (KStr (py "choices"))) /\
  calls (snd (get_agent_response (answers (VDict ∅)) (fst (held pasta))
                (snd (held pasta)))) =
    calls (snd (held pasta)) ++ [submitted (snd (held pasta)) pasta].
Proof.
  apply (no_choices_key_error (answers (VDict ∅)) (fst (held pasta)) pasta
           (snd (held pasta)) ∅ held_pasta pasta_has_role eq_refl).
  vm_compute. reflexivity.
Defined.

(** X4. A response whose ["choices"] is the empty list makes the call raise
    [IndexError], after the one request was sent. *)
Theorem empty_choices_index_error (provider : nat -> request -> outcome)
    (x : loc) (history : list message) (w : world)
    (d : gmap (list N) pyval) :
  snapshot (heap w) x = Some history ->
  head_has_role history ->
  answer provider w history = Returned (VDict d) ->
  d !! py "choices" = Some (VList []) ->
  fst (get_agent_response provider x w) = Raise IndexError /\
  calls (snd (get_agent_response provider x w)) =
    calls w ++ [submitted w history].
Proof.
  intros Hs Hr Ha Hd.
  apply (call_reading_error provider x history w (VDict d)); try assumption.
  apply empty_choices, Hd.
Qed.

Lemma empty_choices_index_error_witness :
  fst (get_agent_response (answers (VDict {[ py "choices" := VList [] ]}))
         (fst (held pasta)) (snd (held pasta))) = Raise IndexError /\
  calls (snd (get_agent_response
                (answers (VDict {[ py "choices" := VList [] ]}))
                (fst (held pasta)) (snd (held pasta)))) =
    calls (snd (held pasta)) ++ [submitted (snd (held pasta)) pasta].
Proof.
  apply (empty_choices_index_error
           (answers (VDict {[ py "choices" := VList [] ]}))
           (fst (held pasta)) pasta (snd (held pasta))
           {[ py "choices" := VList [] ]} held_pasta pasta_has_role eq_refl).
  vm_compute. reflexivity.
Defined.

(** X5. A response whose first choice has a message without a ["content"]
    key makes the call raise [KeyError("content")], after the one request
    was sent. *)
Theorem missing_content_key_error (provider : nat -> request -> outcome)
    (x : loc) (history : list message) (w : world)
    (d dc dm : gmap (list N) pyval) (rest : list pyval) :
  snapshot (heap w) x = Some history ->
  head_has_role history ->
  answer provider w history = Returned (VDict d) ->
  d !! py "choices" = Some (VList (VDict dc :: rest)) ->
  dc !! py "message" = Some (VDict dm) ->
  dm !! py "content" = None ->
  fst (get_agent_response provider x w) =
    Raise (KeyError (KStr (py "content"))) /\
  calls (snd (get_agent_response provider x w)) =
    calls w ++ [submitted w history].
Proof.
  intros Hs Hr Ha Hd Hm Hc.
  apply (call_reading_error provider x history w (VDict d)); try assumption.
  eapply missing_content; eassumption.
Qed.

Lemma missing_content_key_error_witness :
  fst (get_agent_response (answers no_content) (fst (held pasta))
         (snd (held pasta))) = Raise (KeyError (KStr (py "content"))) /\
  calls (snd (get_agent_response (answers no_content) (fst (held pasta))
                (snd (held pasta)))) =
    calls (snd (held pasta)) ++ [submitted (snd (held pasta)) pasta].
Proof.
  apply (missing_content_key_error (answers no_content) (fst (held pasta))
           pasta (snd (held pasta))
           {[ py "choices" := VList [VDict {[ py "message" := VDict ∅ ]}] ]}
           {[ py "message" := VDict ∅ ]} ∅ []
           held_pasta pasta_has_role eq_refl).
  - vm_compute. reflexivity.
  - vm_compute. reflexivity.
  - vm_compute. reflexivity.
Defined.

(** X6. A response whose content is there but is no text ([None], a number,
    a list, a dict) makes the call raise [AttributeError], after the one
    request was sent. *)
Theorem non_text_content_attribute_error
    (provider : nat -> request -> outcome)
    (x : loc) (history : list message) (w : world)
    (d dc dm : gmap (list N) pyval) (rest : list pyval) (c : pyval) :
  snapshot (heap w) x = Some history ->
  head_has_role history ->
  answer provider w history = Returned (VDict d) ->
  d !! py "choices" = Some (VList (VDict dc :: rest)) ->
  dc !! py "message" = Some (VDict dm) ->
  dm !! py "content" = Some c ->
  (forall s, c <> VStr s) ->
  fst (get_agent_response provider x w) = Raise AttributeError /\
  calls (snd (get_agent_response provider x w)) =
    calls w ++ [submitted w history].
Proof.
  intros Hs Hr Ha Hd Hm Hc Hno.
  apply (call_reading_error provider x history w (VDict d)); try assumption.
  unfold assistant_reply. simpl. rewrite Hd. simpl. rewrite Hm. simpl.
  rewrite Hc. simpl.
  destruct c as [| | |s| |]; try reflexivity. destruct (Hno s eq_refl).
Qed.

Lemma non_text_content_attribute_error_witness :
  fst (get_agent_response (answers (reply_of VNone)) (fst (held pasta))
         (snd (held pasta))) = Raise AttributeError /\
  calls (snd (get_agent_response (answers (reply_of VNone)) (fst (held pasta))
                (snd (held pasta)))) =
    calls (snd (held pasta)) ++ [submitted (snd (held pasta)) pasta].
Proof.
  apply (non_text_content_attribute_error (answers (reply_of VNone))
           (fst (held pasta)) pasta (snd (held pasta))
           {[ py "choices" :=
                VList [VDict {[ py "message" :=
                                  VDict {[ py "role" := VStr (py "assistant");
                                           py "content" := VNone ]} ]}] ]}
           {[ py "message" :=
                VDict {[ py "role" := VStr (py "assistant");
                         py "content" := VNone ]} ]}
           {[ py "role" := VStr (py "assistant"); py "content" := VNone ]}
           [] VNone held_pasta pasta_has_role eq_refl).
  - vm_compute. reflexivity.
  - vm_compute. reflexivity.
  - vm_compute. reflexivity.
  - intros s. discriminate.
Defined.

(** X7. The content appended is the text of the reply with white space taken
    off its two ends and nothing else changed: the text is that content
    between two runs of white space. *)
Theorem reply_altered_only_at_ends (provider : nat -> request -> outcome)
    (x : loc) (history : list message) (w : world) (v : pyval)
    (text : list N) :
  snapshot (heap w) x = Some history ->
  head_has_role history ->
  answer provider w history = Returned v ->
  well_formed v text ->
  exists y w' c p q,
    get_agent_response provider x w = (Return y, w') /\
    snapshot (heap w') y =
      Some (working history ++ [role_content (py "assistant") c]) /\
    text = p ++ c ++ q /\
    forallb isspace p = true /\
    forallb isspace q = true.
Proof.
  intros Hs Hr Ha Hwf.
  destruct (call_succeeds provider x history w v text Hs Hr Ha Hwf)
    as (items & pre & d & y & w' & Hrun & _ & _ & _ & _ & _ & _ & Hsnap).
  destruct (strip_split text) as (p & q & Ht & Hp & Hq).
  exists y, w', (strip text), p, q.
  split; [exact Hrun|]. split; [exact Hsnap|].
  split; [exact Ht|]. split; assumption.
Qed.

Lemma reply_altered_only_at_ends_witness :
  exists y w' c p q,
    get_agent_response (answers boiled) (fst (held pasta)) (snd (held pasta)) =
      (Return y, w') /\
    snapshot (heap w') y =
      Some (working pasta ++ [role_content (py "assistant") c]) /\
    py "  Boil it.  " = p ++ c ++ q /\
    forallb isspace p = true /\
    forallb isspace q = true.
Proof.
  apply (reply_altered_only_at_ends (answers boiled) (fst (held pasta)) pasta
           (snd (held pasta)) boiled (py "  Boil it.  ")
           held_pasta pasta_has_role eq_refl
           (well_formed_reply_of (py "  Boil it.  "))).
Defined.

(** X9. Only the first message is looked at: when it is not a system
    message the prompt is added even if a system message comes later in the
    history, so the request, and the conversation returned, hold one system
    message more than the history. *)
Theorem prompt_added_unless_system_first
    (provider : nat -> request -> outcome)
    (x : loc) (history : list message) (w : world) :
  snapshot (heap w) x = Some history ->
  head_has_role history ->
  leading_system history = false ->
  exists r,
    calls (snd (get_agent_response provider x w)) = calls w ++ [r] /\
    count_system (req_messages r) = S (count_system history) /\
    (forall y,
       fst (get_agent_response provider x w) = Return y ->
       exists result,
         snapshot (heap (snd (get_agent_response provider x w))) y =
           Some result /\
         count_system result = S (count_system history)).
Proof.
  intros Hs Hr Hlead.
  assert (Hw : working history = system_message :: history).
  { unfold working. rewrite Hlead. reflexivity. }
  assert (Hcount : count_system (system_message :: history) =
                   S (count_system history)).
  { unfold count_system. rewrite filter_cons_True; [reflexivity|].
    apply is_system_system_message. }
  exists (submitted w history). split; [|split].
  - apply call_logged; assumption.
  - unfold submitted. simpl. rewrite Hw. exact Hcount.
  - intros y Hy.
    destruct (call_returns provider x y history w Hs Hr Hy) as [s Hsnap].
    eexists. split; [exact Hsnap|].
    rewrite count_system_snoc, Hw. exact Hcount.
Qed.

Lemma held_late_system :
  snapshot (heap (snd (held late_system))) (fst (held late_system)) =
    Some late_system.
Proof. vm_compute. reflexivity. Qed.

Lemma prompt_added_unless_system_first_witness :
  exists r,
    calls (snd (get_agent_response (answers boiled) (fst (held late_system))
                  (snd (held late_system)))) =
      calls (snd (held late_system)) ++ [r] /\
    count_system (req_messages r) = 2%nat /\
    (forall y,
       fst (get_agent_response (answers boiled) (fst (held late_system))
              (snd (held late_system))) = Return y ->
       exists result,
         snapshot (heap (snd (get_agent_response (answers boiled)
                                (fst (held late_system))
                                (snd (held late_system))))) y =
           Some result /\
         count_system result = 2%nat).
Proof.
  apply (prompt_added_unless_system_first (answers boiled)
           (fst (held late_system)) late_system (snd (held late_system))
           held_late_system).
  - exists (py "user"). vm_compute. reflexivity.
  - vm_compute. reflexivity.
Defined.

(** X10. A conversation the function returned can be handed back to it:
    the second call adds no prompt, its request carries the first result as
    it is, and when it returns, it returns the first result followed by one
    more reply. *)
Theorem second_call_keeps_first_result (provider : nat -> request -> outcome)
    (x y : loc) (history : list message) (w w' : world) :
  snapshot (heap w) x = Some history ->
  head_has_role history ->
  get_agent_response provider x w = (Return y, w') ->
  exists s,
    snapshot (heap w') y = Some (working history ++ [assistant_message s]) /\
    calls (snd (get_agent_response provider y w')) =
      calls w ++
      [mk_request (MODEL_NAME w) (working history);
       mk_request (MODEL_NAME w) (working history ++ [assistant_message s])] /\
    (forall z,
       fst (get_agent_response provider y w') = Return z ->
       exists s',
         snapshot (heap (snd (get_agent_response provider y w'))) z =
           Some (working history ++
                 [assistant_message s; assistant_message s'])).
Proof.
  intros Hs Hr Hrun.
  pose proof (call_returns provider x y history w Hs Hr) as Hret.
  pose proof (call_logged provider x history w Hs Hr) as Hlog.
  destruct (get_agent_response_frame provider x w) as [_ _ Hm _].
  rewrite Hrun in Hret, Hlog, Hm. simpl in Hret, Hlog, Hm.
  destruct (Hret eq_refl) as [s Hsnap].
  set (result := working history ++ [assistant_message s]) in *.
  assert (Hlead : leading_system result = true).
  { apply leading_system_app, leading_system_working. }
  pose proof (leading_system_has_role result Hlead) as Hr'.
  assert (Hw : working result = result).
  { unfold working. rewrite Hlead. reflexivity. }
  exists s. split; [exact Hsnap|]. split.
  - rewrite (call_logged provider y result w' Hsnap Hr').
    unfold submitted. rewrite Hw, Hlog, Hm, <- app_assoc. reflexivity.
  - intros z Hz.
    destruct (call_returns provider y z result w' Hsnap Hr' Hz) as [s' Hsnap'].
    exists s'. rewrite Hw in Hsnap'. unfold result in Hsnap'.
    rewrite <- app_assoc in Hsnap'. exact Hsnap'.
Qed.

Lemma second_call_keeps_first_result_witness :
  exists s,
    snapshot
      (heap (snd (get_agent_response (answers boiled) (fst (held pasta))
                    (snd (held pasta))))) 8%positive =
      Some (working pasta ++ [assistant_message s]) /\
    calls (snd (get_agent_response (answers boiled) 8%positive
                  (snd (get_agent_response (answers boiled) (fst (held pasta))
                          (snd (held pasta)))))) =
      calls (snd (held pasta)) ++
      [mk_request (MODEL_NAME (snd (held pasta))) (working pasta);
       mk_request (MODEL_NAME (snd (held pasta)))
         (working pasta ++ [assistant_message s])] /\
    (forall z,
       fst (get_agent_response (answers boiled) 8%positive
              (snd (get_agent_response (answers boiled) (fst (held pasta))
                      (snd (held pasta))))) = Return z ->
       exists s',
         snapshot
           (heap (snd (get_agent_response (answers boiled) 8%positive
                         (snd (get_agent_response (answers boiled)
                                 (fst (held pasta)) (snd (held pasta)))))))
           z =
           Some (working pasta ++
                 [assistant_message s; assistant_message s'])).
Proof.
  apply (second_call_keeps_first_result (answers boiled) (fst (held pasta))
           8%positive pasta (snd (held pasta))
           (snd (get_agent_response (answers boiled) (fst (held pasta))
                   (snd (held pasta))))
           held_pasta pasta_has_role).
  vm_compute. reflexivity.
Defined.

(** X11. The model name comes from the process's own environment when
    [MODEL_NAME] is set there, an empty value included; otherwise from the
    [.env] file when it is set there; otherwise it is ["gpt-4o-mini"]. *)
Theorem model_name_precedence (dotenv env : gmap (list N) (list N)) :
  MODEL_NAME (import_utils dotenv env) =
    match env !! py "MODEL_NAME" with
    | Some v => v
    | None =>
        match dotenv !! py "MODEL_NAME" with
        | Some v => v
        | None => py "gpt-4o-mini"
        end
    end.
Proof.
  unfold import_utils, load_dotenv, environ_get. cbn [MODEL_NAME].
  rewrite lookup_union.
  destruct (env !! py "MODEL_NAME") as [v|];
    destruct (dotenv !! py "MODEL_NAME") as [v'|]; reflexivity.
Qed.

(** X12. On a conversation led by a system message the list is handed over
    as it is: when the provider fails, the world after the call is the
    world before it with the one request logged, no object having been
    built. *)
Theorem failure_builds_nothing_when_system_leads
    (provider : nat -> request -> outcome)
    (x : loc) (history : list message) (w : world) :
  snapshot (heap w) x = Some history ->
  leading_system history = true ->
  provider_failed (answer provider w history) ->
  exists e,
    get_agent_response provider x w =
      (Raise e, log (mk_request (MODEL_NAME w) history) w).
Proof.
  intros Hs Hlead Hfail.
  pose proof (leading_system_has_role history Hlead) as Hr.
  destruct (get_agent_response_cases provider x history w Hs Hr)
    as (items & pre & w1 & _ & _ & Hpre & _ & Hcase).
  rewrite Hlead in Hpre. destruct Hpre as [_ ->].
  assert (Hsub : submitted w history = mk_request (MODEL_NAME w) history).
  { unfold submitted, working. rewrite Hlead. reflexivity. }
  rewrite Hsub in Hcase.
  destruct (answer provider w history) as [v|e0].
  - destruct (assistant_reply_malformed v Hfail) as (e & He & _).
    rewrite He in Hcase. exists e. exact Hcase.
  - exists e0. exact Hcase.
Qed.

Lemma failure_builds_nothing_when_system_leads_witness :
  exists e,
    get_agent_response (fails (LibraryError (py "Timeout")))
      (fst (held briefed)) (snd (held briefed)) =
      (Raise e, log (mk_request (MODEL_NAME (snd (held briefed))) briefed)
                  (snd (held briefed))).
Proof.
  apply (failure_builds_nothing_when_system_leads
           (fails (LibraryError (py "Timeout"))) (fst (held briefed)) briefed
           (snd (held briefed)) held_briefed eq_refl I).
Defined.
